(** * Development-application scraper, District Council of Loxton Waikerie

    A shallow embedding of [scraper.ts] (and of its second build, which adds
    the [comment_url] column and inserts with [insert or ignore]) together
    with the properties of the extraction and storage pipeline.

    Layout: JavaScript strings, the [moment] calls the scraper makes, the
    [cheerio] selections it makes, [getResults]' parsing loop, [insertRow],
    [getRandom] and the month arithmetic of [main]; theorems follow. *)

From stdpp Require Import gmap list.
From Stdlib Require Import ZArith QArith Qround Lia String Ascii List.
Import ListNotations.

Set Warnings "-register-all".

Local Open Scope N_scope.

(** ** JavaScript strings

    A string is its sequence of UTF-16 code units. *)

Abbreviation jsstring := (list N).

(** A literal of the source, as code units. *)
Definition js (s : string) : jsstring :=
  map N_of_ascii (list_ascii_of_string s).

(** The double-quote character of the source's template strings. *)
Definition dquote : jsstring := [34].

(** The characters matched by [\s], which are also the ones removed by
    [String.prototype.trim]: WhiteSpace and LineTerminator. *)
Definition is_whitespace (c : N) : bool :=
  ((9 <=? c) && (c <=? 13))
  || (c =? 32) || (c =? 0xA0) || (c =? 0x1680)
  || ((0x2000 <=? c) && (c <=? 0x200A))
  || (c =? 0x2028) || (c =? 0x2029) || (c =? 0x202F)
  || (c =? 0x205F) || (c =? 0x3000) || (c =? 0xFEFF).

Fixpoint trimStart (s : jsstring) : jsstring :=
  match s with
  | [] => []
  | c :: t => if is_whitespace c then trimStart t else s
  end.

Definition trimEnd (s : jsstring) : jsstring := rev (trimStart (rev s)).

(** [s.trim()] *)
Definition trim (s : jsstring) : jsstring := trimEnd (trimStart s).

Definition startsWithWhitespace (s : jsstring) : bool :=
  match s with
  | [] => false
  | c :: _ => is_whitespace c
  end.

(** [s.replace(/\s\s+/g, SPACE)]: scanning from the left, wherever two
    whitespace characters meet the whole run they start is matched (the [+]
    is greedy) and replaced by one space; every other character is copied.
    [inRun] holds while the scan is inside a matched run. *)
Fixpoint replaceRuns (inRun : bool) (s : jsstring) : jsstring :=
  match s with
  | [] => []
  | c :: t =>
      if is_whitespace c then
        if inRun then replaceRuns true t
        else if startsWithWhitespace t then 32 :: replaceRuns true t
        else c :: replaceRuns false t
      else c :: replaceRuns false t
  end.

(** [text.trim().replace(/\s\s+/g, SPACE)], the address of a heading. *)
Definition normalizeAddress (text : jsstring) : jsstring :=
  replaceRuns false (trim text).

(** Predicates used to state what normalisation achieves. *)
Definition endsWithWhitespace (s : jsstring) : bool :=
  startsWithWhitespace (rev s).

Fixpoint adjacentWhitespace (s : jsstring) : bool :=
  match s with
  | [] => false
  | c :: t => (is_whitespace c && startsWithWhitespace t) || adjacentWhitespace t
  end.

(** ** The calls made to the moment library *)

Module Moment.

Local Open Scope Z_scope.

(** Modelled from the spec: the moment library is a dependency and its code
    is not among the sources.  The scraper uses [moment()],
    [moment.invalid()], [moment(value, D/MM/YYYY, true)], [isValid()],
    [format(YYYY-MM-DD)], [year()] and [month()].  A valid moment is kept as
    the calendar date it denotes, the month counted from zero as [month()]
    returns it; the time of day plays no part in the scraper. *)
Record ymd := mk { year : Z; month : Z; date : Z }.

(** A moment: [None] is the invalid sentinel. *)
Abbreviation t := (option ymd).

(** [moment.invalid()] *)
Definition invalid : t := None.

(** [m.isValid()] *)
Definition isValid (m : t) : bool :=
  match m with Some _ => true | None => false end.

Definition isDigit (c : N) : bool := ((48 <=? c) && (c <=? 57))%N.

(** The number a run of decimal digits denotes. *)
Definition digitsValue (digits : jsstring) : N :=
  fold_left (fun acc c => 10 * acc + (c - 48))%N digits 0%N.

Definition toInt (digits : jsstring) : Z := Z.of_N (digitsValue digits).

(** Modelled from the spec: how strict parsing consumes its input, one format
    token after the other.  Each matcher returns the text it consumed and
    the rest.  In strict mode a token that does not match where the previous
    one stopped leaves characters over and the result is invalid, so the
    matchers only look at the front of the input.  [match1to2] is the token
    [D] (one or two digits, two when there are two), [match2] the token
    [MM], [match4] the token [YYYY], [matchLiteral] the separator. *)
Definition match1to2 (s : jsstring) : option (jsstring * jsstring) :=
  match s with
  | a :: b :: r =>
      if isDigit a then
        if isDigit b then Some ([a; b], r) else Some ([a], b :: r)
      else None
  | [a] => if isDigit a then Some ([a], []) else None
  | [] => None
  end.

Definition match2 (s : jsstring) : option (jsstring * jsstring) :=
  match s with
  | a :: b :: r => if isDigit a && isDigit b then Some ([a; b], r) else None
  | _ => None
  end.

Definition match4 (s : jsstring) : option (jsstring * jsstring) :=
  match s with
  | a :: b :: c :: d :: r =>
      if isDigit a && isDigit b && isDigit c && isDigit d
      then Some ([a; b; c; d], r) else None
  | _ => None
  end.

Definition matchLiteral (l : N) (s : jsstring) : option (jsstring * jsstring) :=
  match s with
  | a :: r => if (a =? l)%N then Some ([a], r) else None
  | [] => None
  end.

Definition isLeapYear (y : Z) : bool :=
  ((Z.rem y 4 =? 0) && negb (Z.rem y 100 =? 0)) || (Z.rem y 400 =? 0).

(** [daysInMonth(year, month)], the month counted from zero. *)
Definition daysInMonth (y m : Z) : Z :=
  let modMonth := m mod 12 in
  let y' := y + (m - modMonth) / 12 in
  if modMonth =? 1 then (if isLeapYear y' then 29 else 28)
  else 31 - Z.rem (Z.rem modMonth 7) 2.

(** The overflow check: a month outside 0..11 or a day outside the month
    makes the moment invalid. *)
Definition fromArray (y m d : Z) : t :=
  if (m <? 0) || (11 <? m) then None
  else if (d <? 1) || (daysInMonth y m <? d) then None
  else Some (mk y m d).

(** [moment(input, D/MM/YYYY, true)]: the five tokens in turn, then nothing
    may be left of the input. *)
Definition parse_D_MM_YYYY_strict (input : jsstring) : t :=
  '(d, s1) ← match1to2 input;
  '(_, s2) ← matchLiteral 47 s1;
  '(m, s3) ← match2 s2;
  '(_, s4) ← matchLiteral 47 s3;
  '(y, s5) ← match4 s4;
  match s5 with
  | [] => fromArray (toInt y) (toInt m - 1) (toInt d)
  | _ :: _ => None
  end.

(** The decimal digits of a natural number, most significant first; [fuel]
    bounds the number of digits. *)
Fixpoint decimalFuel (fuel : nat) (n : N) : jsstring :=
  match fuel with
  | O => [(48 + n)%N]
  | S fuel' =>
      if (n <? 10)%N then [(48 + n)%N]
      else decimalFuel fuel' (n / 10)%N ++ [(48 + n mod 10)%N]
  end.

(** [String(n)] for a natural number: it has no more decimal digits than
    binary ones. *)
Definition decimal (n : N) : jsstring :=
  decimalFuel (N.to_nat (N.size n)) n.

(** [zeroFill(number, targetLength)]: the sign when negative, then zeros up
    to the target length, then the digits. *)
Definition zeroFill (number : Z) (targetLength : nat) : jsstring :=
  let absNumber := decimal (Z.abs_N number) in
  (if number <? 0 then js "-" else [])
  ++ repeat 48%N (targetLength - length absNumber) ++ absNumber.

(** [m.format(YYYY-MM-DD)] *)
Definition format_YYYY_MM_DD (m : t) : jsstring :=
  match m with
  | Some v =>
      zeroFill (year v) 4 ++ js "-" ++ zeroFill (month v + 1) 2
      ++ js "-" ++ zeroFill (date v) 2
  | None => js "Invalid date"
  end.


(** [m.format(DD/MM/YYYY)] *)
Definition format_DD_MM_YYYY (m : t) : jsstring :=
  match m with
  | Some v =>
      zeroFill (date v) 2 ++ js "/" ++ zeroFill (month v + 1) 2
      ++ js "/" ++ zeroFill (year v) 4
  | None => js "Invalid date"
  end.

(** Modelled from the spec: [m.subtract(n, months)], the date [n] calendar
    months before, for a whole number of months; the library is not among
    the sources.  The month becomes the present one less [n], a month
    outside 0..11 carrying into the year, and the day of the month is cut
    down to the length of the month arrived at. *)
Definition subtractMonths (n : Z) (v : ymd) : ymd :=
  let value := month v - n in
  let dayOfMonth := Z.min (date v) (daysInMonth (year v) value) in
  mk (year v + value / 12) (value mod 12) dayOfMonth.

End Moment.

(** ** The selections made with cheerio *)

(** A parsed document: text nodes and elements; an element has a tag name,
    the names in its class attribute and children. *)
Inductive node :=
| Text (data : jsstring)
| Element (name : jsstring) (classes : list jsstring) (children : list node).

(** An element as a selection holds it: the node and the siblings after it. *)
Record cursor := Cursor { here : node; following : list node }.

(** A selector of the form [tag] or [tag.class]. *)
Record selector := Selector { selTag : jsstring; selClass : option jsstring }.

Definition matches (sel : selector) (n : node) : bool :=
  match n with
  | Text _ => false
  | Element name classes _ =>
      bool_decide (name = selTag sel)
      && match selClass sel with
         | Some c => bool_decide (c ∈ classes)
         | None => true
         end
  end.

(** [.text()] of one node: the data of the text nodes below it, in order. *)
Fixpoint textOf (n : node) : jsstring :=
  match n with
  | Text data => data
  | Element _ _ children => concat (map textOf children)
  end.

(** [.text()] of a selection. *)
Definition text (selection : list node) : jsstring :=
  concat (map textOf selection).

(** Every node below [n], in document order, each with its later siblings. *)
Fixpoint descendants (n : node) : list cursor :=
  match n with
  | Text _ => []
  | Element _ _ children =>
      (fix walk (l : list node) : list cursor :=
         match l with
         | [] => []
         | c :: l' => Cursor c l' :: descendants c ++ walk l'
         end) children
  end.

(** A document is the list of nodes under cheerio's root. *)
Definition document := list node.

(** [$(sel).get()] *)
Definition select (sel : selector) (doc : document) : list cursor :=
  filter (fun c => matches sel (here c))
    (descendants (Element (js "root") [] doc)).

(** [$(element).next(sel).get()]: the nearest later sibling that is an
    element, kept when it matches. *)
Fixpoint nextElement (siblings : list node) : option node :=
  match siblings with
  | [] => None
  | Text _ :: rest => nextElement rest
  | (Element _ _ _ as e) :: _ => Some e
  end.

Definition next (sel : selector) (c : cursor) : list node :=
  match nextElement (following c) with
  | Some e => if matches sel e then [e] else []
  | None => []
  end.

(** [$(element).find(sel).get()] *)
Definition find (sel : selector) (n : node) : list node :=
  map here (filter (fun c => matches sel (here c)) (descendants n)).

(** [$(element).children(sel)] *)
Definition children (sel : selector) (n : node) : list node :=
  match n with
  | Text _ => []
  | Element _ _ cs => filter (matches sel) cs
  end.

(** ** The scraper *)

Definition DevelopmentApplicationMainUrl : jsstring :=
  js "https://eservices.loxtonwaikerie.sa.gov.au/eservice/daEnquiryInit.do?nodeNum=2811".

Definition CommentUrl : jsstring := js "mailto:requests@waikerie.com".

(** The two builds of the scraper: [scraper.ts] (six columns,
    [insert or replace]) and the build with the [comment_url] column (seven
    columns, [insert or ignore]). *)
Inductive build := ReplaceBuild | IgnoreBuild.

(** The object pushed by [getResults]; [commentUrl] is absent in
    [scraper.ts]. *)
Record developmentApplication := {
  applicationNumber : jsstring;
  address : jsstring;
  description : jsstring;
  informationUrl : jsstring;
  commentUrl : option jsstring;
  scrapeDate : jsstring;
  receivedDate : jsstring
}.

(** The variables of one turn of the loop over the headings. *)
Record locals := {
  l_applicationNumber : jsstring;
  l_description : jsstring;
  l_receivedDate : Moment.t
}.

Definition initialLocals : locals :=
  {| l_applicationNumber := []; l_description := [];
     l_receivedDate := Moment.invalid |}.

Definition h4_non_table_headers := Selector (js "h4") (Some (js "non_table_headers")).
Definition div_any := Selector (js "div") None.
Definition p_rowDataOnly := Selector (js "p") (Some (js "rowDataOnly")).
Definition span_key := Selector (js "span") (Some (js "key")).
Definition span_inputField := Selector (js "span") (Some (js "inputField")).

Definition foundMessage (applicationNumber : jsstring) : jsstring :=
  js "Found development application " ++ dquote ++ applicationNumber
  ++ dquote ++ js ".".

Definition ignoringMessage (applicationNumber : jsstring) : jsstring :=
  js "Ignoring development application " ++ dquote ++ applicationNumber
  ++ dquote ++ js " because the address is blank.".

(** The key and the value of a row. *)
Definition rowKey (paragraphElement : node) : jsstring :=
  trim (text (children span_key paragraphElement)).

Definition rowValue (paragraphElement : node) : jsstring :=
  trim (text (children span_inputField paragraphElement)).

(** The rows under a heading: both inner loops flattened, since [next]
    yields at most one [div]. *)
Definition rowsOf (headerElement : cursor) : list (jsstring * jsstring) :=
  flat_map
    (fun divElement =>
       map (fun p => (rowKey p, rowValue p)) (find p_rowDataOnly divElement))
    (next div_any headerElement).

(** The body of the loop over the rows: the variables and the console. *)
Definition rowStep (acc : locals * list jsstring) (row : jsstring * jsstring)
  : locals * list jsstring :=
  let '(vars, console) := acc in
  let '(key, value) := row in
  if decide (key = js "Type of Work") then
    ({| l_applicationNumber := l_applicationNumber vars;
        l_description := value;
        l_receivedDate := l_receivedDate vars |}, console)
  else if decide (key = js "Application No.") then
    ({| l_applicationNumber := value;
        l_description := l_description vars;
        l_receivedDate := l_receivedDate vars |},
     console ++ [foundMessage value])
  else if decide (key = js "Date Lodged") then
    ({| l_applicationNumber := l_applicationNumber vars;
        l_description := l_description vars;
        l_receivedDate := Moment.parse_D_MM_YYYY_strict value |}, console)
  else acc.

Definition isEmpty (s : jsstring) : bool :=
  match s with [] => true | _ :: _ => false end.

(** [receivedDate.isValid() ? receivedDate.format(YYYY-MM-DD) : EMPTY] *)
Definition receivedDateText (receivedDate : Moment.t) : jsstring :=
  if Moment.isValid receivedDate then Moment.format_YYYY_MM_DD receivedDate
  else [].

(** The object literal pushed for an accepted heading. *)
Definition makeApplication (b : build) (now : Moment.ymd)
    (address : jsstring) (vars : locals) : developmentApplication :=
  {| applicationNumber := l_applicationNumber vars;
     address := address;
     description :=
       if isEmpty (l_description vars) then js "No Description Provided"
       else l_description vars;
     informationUrl := DevelopmentApplicationMainUrl;
     commentUrl :=
       match b with ReplaceBuild => None | IgnoreBuild => Some CommentUrl end;
     scrapeDate := Moment.format_YYYY_MM_DD (Some now);
     receivedDate := receivedDateText (l_receivedDate vars) |}.

(** The body of the loop over the headings: the array being built and the
    console. *)
Definition headerStep (b : build) (now : Moment.ymd)
    (acc : list developmentApplication * list jsstring)
    (headerElement : cursor)
  : list developmentApplication * list jsstring :=
  let '(developmentApplications, console) := acc in
  let address := normalizeAddress (text [here headerElement]) in
  let '(vars, console) :=
    fold_left rowStep (rowsOf headerElement) (initialLocals, console) in
  if negb (isEmpty (l_applicationNumber vars)) && isEmpty address then
    (developmentApplications,
     console ++ [ignoringMessage (l_applicationNumber vars)])
  else if negb (isEmpty (l_applicationNumber vars)) && negb (isEmpty address)
  then
    (developmentApplications ++ [makeApplication b now address vars], console)
  else (developmentApplications, console).

(** The parsing stage of [getResults]: from the loaded page to the array
    returned, with what was written to the console on the way.  [now] is the
    date [moment()] yields while the page is parsed. *)
Definition parseResults (b : build) (now : Moment.ymd) (doc : document)
  : list developmentApplication * list jsstring :=
  fold_left (headerStep b now) (select h4_non_table_headers doc) ([], []).

(** ** The store *)

(** A bound value of a statement. *)
Inductive sqlValue := SqlNull | SqlText (s : jsstring).

Definition sqlOfOption (o : option jsstring) : sqlValue :=
  match o with Some s => SqlText s | None => SqlNull end.

(** The table [data]: its rows by [council_reference], the primary key. *)
Abbreviation table := (gmap (list N) (list sqlValue)).

(** The values bound by [scraper.ts]. *)
Definition rowValues6 (da : developmentApplication) : list sqlValue :=
  [SqlText (applicationNumber da); SqlText (address da);
   SqlText (description da); SqlText (informationUrl da);
   SqlText (scrapeDate da); SqlText (receivedDate da)].

(** The values bound by the build with [comment_url]. *)
Definition rowValues7 (da : developmentApplication) : list sqlValue :=
  [SqlText (applicationNumber da); SqlText (address da);
   SqlText (description da); SqlText (informationUrl da);
   sqlOfOption (commentUrl da);
   SqlText (scrapeDate da); SqlText (receivedDate da)].

(** [insert or replace into data values (...)]: the table afterwards and
    the number of rows changed. *)
Definition insertOrReplace (key : jsstring) (values : list sqlValue)
    (database : table) : table * nat :=
  (<[key := values]> database, 1%nat).

(** [insert or ignore into data values (...)] *)
Definition insertOrIgnore (key : jsstring) (values : list sqlValue)
    (database : table) : table * nat :=
  match database !! key with
  | Some _ => (database, 0%nat)
  | None => (<[key := values]> database, 1%nat)
  end.

Definition detailText (da : developmentApplication) : jsstring :=
  js ": application " ++ dquote ++ applicationNumber da ++ dquote
  ++ js " with address " ++ dquote ++ address da ++ dquote
  ++ js ", description " ++ dquote ++ description da ++ dquote
  ++ js " and received date " ++ dquote ++ receivedDate da ++ dquote.

Definition savedMessage (da : developmentApplication) : jsstring :=
  js "    Saved" ++ detailText da ++ js " into the database.".

Definition insertedMessage (da : developmentApplication) : jsstring :=
  js "    Inserted" ++ detailText da ++ js " into the database.".

Definition skippedMessage (da : developmentApplication) : jsstring :=
  js "    Skipped" ++ detailText da
  ++ js " because it was already present in the database.".

(** [insertRow(database, developmentApplication)]: the table afterwards and
    the line written to the console. *)
Definition insertRow (b : build) (database : table)
    (da : developmentApplication) : table * list jsstring :=
  match b with
  | ReplaceBuild =>
      let '(database', _) :=
        insertOrReplace (applicationNumber da) (rowValues6 da) database in
      (database', [savedMessage da])
  | IgnoreBuild =>
      let '(database', changes) :=
        insertOrIgnore (applicationNumber da) (rowValues7 da) database in
      (database',
       [if (0 <? changes)%nat then insertedMessage da else skippedMessage da])
  end.

(** The loop of [main] that stores what [getResults] returned. *)
Definition insertAll (b : build) (database : table)
    (developmentApplications : list developmentApplication)
  : table * list jsstring :=
  fold_left
    (fun acc da =>
       let '(database', line) := insertRow b (fst acc) da in
       (database', snd acc ++ line))
    developmentApplications (database, []).

(** ** Random numbers and the months of [main] *)

(** [getRandom(minimum, maximum)]; [random] is the value [Math.random()]
    returns, taken as an exact rational. *)
Definition getRandom (random : Q) (minimum maximum : Q) : Z :=
  (Qfloor (random * inject_Z (Qfloor maximum - Qceiling minimum))
   + Qceiling minimum)%Z.

(** [moment().year() * 12 + moment().month() - (2012 * 12 + 1)] *)
Definition monthCount (now : Moment.ymd) : Z :=
  (Moment.year now * 12 + Moment.month now - (2012 * 12 + 1))%Z.

(** [getRandom(1, monthCount + 1)] *)
Definition randomMonth (random : Q) (now : Moment.ymd) : Z :=
  getRandom random (inject_Z 1) (inject_Z (monthCount now + 1)).

(** The delay before the search request: [2000 + getRandom(0, 5) * 1000]. *)
Definition pacingDelay (random : Q) : Z :=
  (2000 + getRandom random (inject_Z 0) (inject_Z 5) * 1000)%Z.

(** ** The search address *)

Definition DevelopmentApplicationSearchUrl : jsstring :=
  js "https://eservices.loxtonwaikerie.sa.gov.au/eservice/daEnquiry.do?number=&lodgeRangeType=on&dateFrom={0}&dateTo={1}&detDateFromString=&detDateToString=&streetName=&suburb=0&unitNum=&houseNum=0%0D%0A%09%09%09%09%09&planNumber=&strataPlan=&lotNumber=&propertyName=&searchMode=A&submitButton=Search".

(** The characters [encodeURIComponent] leaves as they are: letters, digits
    and the marks - _ . ! ~ * ' ( ). *)
Definition uriUnescaped (c : N) : bool :=
  ((65 <=? c) && (c <=? 90)) || ((97 <=? c) && (c <=? 122))
  || ((48 <=? c) && (c <=? 57))
  || (c =? 45) || (c =? 95) || (c =? 46) || (c =? 33) || (c =? 126)
  || (c =? 42) || (c =? 39) || (c =? 40) || (c =? 41).

Definition isHighSurrogate (c : N) : bool := (0xD800 <=? c) && (c <=? 0xDBFF).
Definition isLowSurrogate (c : N) : bool := (0xDC00 <=? c) && (c <=? 0xDFFF).

Definition hexDigit (n : N) : N := if n <? 10 then 48 + n else 55 + n.

(** A percent sign and the two hexadecimal digits of an octet. *)
Definition percentOctet (octet : N) : jsstring :=
  [37; hexDigit (octet / 16); hexDigit (octet mod 16)].

(** The octets of a code point in UTF-8. *)
Definition utf8 (cp : N) : list N :=
  if cp <? 0x80 then [cp]
  else if cp <? 0x800 then [0xC0 + cp / 64; 0x80 + cp mod 64]
  else if cp <? 0x10000 then
    [0xE0 + cp / 4096; 0x80 + (cp / 64) mod 64; 0x80 + cp mod 64]
  else
    [0xF0 + cp / 262144; 0x80 + (cp / 4096) mod 64;
     0x80 + (cp / 64) mod 64; 0x80 + cp mod 64].

Definition percentEncode (cp : N) : jsstring :=
  flat_map percentOctet (utf8 cp).

(** [encodeURIComponent(s)]; [None] is the URIError thrown at a surrogate
    without its partner. *)
Fixpoint encodeURIComponent (s : jsstring) : option jsstring :=
  match s with
  | [] => Some []
  | c :: t =>
      if uriUnescaped c then cons c <$> encodeURIComponent t
      else if isLowSurrogate c then None
      else if negb (isHighSurrogate c) then
        app (percentEncode c) <$> encodeURIComponent t
      else
        match t with
        | [] => None
        | d :: t' =>
            if isLowSurrogate d then
              app (percentEncode
                     ((c - 0xD800) * 0x400 + (d - 0xDC00) + 0x10000))
                <$> encodeURIComponent t'
            else None
        end
  end.

Fixpoint startsWith (pattern s : jsstring) : bool :=
  match pattern, s with
  | [], _ => true
  | p :: ps, c :: cs => (p =? c) && startsWith ps cs
  | _ :: _, [] => false
  end.

(** [s.replace(/pattern/g, replacement)] for a pattern that is plain text:
    scanning from the left, each occurrence found is replaced and the scan
    resumes after it.  [skip] counts the characters of an occurrence still
    to pass over.  The replacement is put in as it is, which is what
    [replace] does with a replacement that holds no dollar sign. *)
Fixpoint replaceAll (pattern replacement : jsstring) (skip : nat)
    (s : jsstring) : jsstring :=
  match s with
  | [] => []
  | c :: t =>
      match skip with
      | S skip' => replaceAll pattern replacement skip' t
      | O =>
          if startsWith pattern s then
            replacement
            ++ replaceAll pattern replacement (length pattern - 1) t
          else c :: replaceAll pattern replacement 0 t
      end
  end.

(** The address [getResults] asks for: the two dates, formatted and
    encoded, put in the places of the template. *)
Definition searchUrl (dateFrom dateTo : Moment.t) : option jsstring :=
  dateFromText ← encodeURIComponent (Moment.format_DD_MM_YYYY dateFrom);
  dateToText ← encodeURIComponent (Moment.format_DD_MM_YYYY dateTo);
  Some (replaceAll (js "{1}") dateToText 0
          (replaceAll (js "{0}") dateFromText 0
             DevelopmentApplicationSearchUrl)).

(** ** The run

    What lies outside the program: the date [moment()] yields during the
    run, the successive values of [Math.random()], and what the server
    answers to the n-th request, either the page as cheerio loads it or the
    error the request is rejected with. *)
Inductive outcome (A : Type) :=
| Resolved (a : A)
| Rejected (error : jsstring).

Arguments Resolved {A} a.
Arguments Rejected {A} error.

Record world := {
  today : Moment.ymd;
  randoms : nat -> Q;
  respond : nat -> jsstring -> outcome document
}.

(** What a run has done so far: the addresses requested, the number of
    random values drawn, the pauses made (milliseconds), the lines written
    to the console and the table. *)
Record run := {
  requests : list jsstring;
  drawn : nat;
  delays : list Z;
  console : list jsstring;
  database : table
}.

Definition log (line : jsstring) (st : run) : run :=
  {| requests := requests st; drawn := drawn st; delays := delays st;
     console := console st ++ [line]; database := database st |}.

Definition logAll (lines : list jsstring) (st : run) : run :=
  {| requests := requests st; drawn := drawn st; delays := delays st;
     console := console st ++ lines; database := database st |}.

(** [await request({ url: url, ... })]: the request is recorded and
    answered. *)
Definition request (w : world) (url : jsstring) (st : run)
  : run * outcome document :=
  ({| requests := requests st ++ [url]; drawn := drawn st;
      delays := delays st; console := console st; database := database st |},
   respond w (length (requests st)) url).

(** [Math.random()] *)
Definition random (w : world) (st : run) : run * Q :=
  ({| requests := requests st; drawn := S (drawn st); delays := delays st;
      console := console st; database := database st |},
   randoms w (drawn st)).

(** [await sleep(milliseconds)] *)
Definition sleep (milliseconds : Z) (st : run) : run :=
  {| requests := requests st; drawn := drawn st;
     delays := delays st ++ [milliseconds];
     console := console st; database := database st |}.

Definition withDatabase (database' : table) (st : run) : run :=
  {| requests := requests st; drawn := drawn st; delays := delays st;
     console := console st; database := database' |}.

(** [getResults(dateFrom, dateTo)] *)
Definition getResults (b : build) (w : world) (dateFrom dateTo : Moment.ymd)
    (st : run) : run * outcome (list developmentApplication) :=
  let st := log (js "Retrieving page: " ++ DevelopmentApplicationMainUrl) st in
  let '(st, answer) := request w DevelopmentApplicationMainUrl st in
  match answer with
  | Rejected error => (st, Rejected error)
  | Resolved _ =>
      let '(st, r) := random w st in
      let st := sleep (pacingDelay r) st in
      match searchUrl (Some dateFrom) (Some dateTo) with
      | None => (st, Rejected (js "URIError: URI malformed"))
      | Some developmentApplicationSearchUrl =>
          let st :=
            log (js "Retrieving search results for: "
                 ++ developmentApplicationSearchUrl) st in
          let '(st, answer) := request w developmentApplicationSearchUrl st in
          match answer with
          | Rejected error => (st, Rejected error)
          | Resolved doc =>
              let '(developmentApplications, lines) :=
                parseResults b (today w) doc in
              (logAll lines st, Resolved developmentApplications)
          end
      end
  end.

Definition insertingMessage (count : nat) : jsstring :=
  js "Inserting " ++ Moment.decimal (N.of_nat count)
  ++ js " development application(s) into the database.".

(** The logging and the storing loop that follow each [getResults]. *)
Definition store (b : build)
    (developmentApplications : list developmentApplication) (st : run)
  : run :=
  let st := log (insertingMessage (length developmentApplications)) st in
  let '(database', lines) :=
    insertAll b (database st) developmentApplications in
  logAll lines (withDatabase database' st).

(** [initializeDatabase()]: the table of the file, made when there is
    none. *)
Definition initializeDatabase (file : option table) : table :=
  default ∅ file.

(** [main()] with the [then] and [catch] that follow it: the state the run
    ends in and whether it completed or was rejected with an error (which
    [catch] then prints).  The statements of the store are taken to
    succeed. *)
Definition main (b : build) (w : world) (file : option table)
  : run * outcome unit :=
  let st :=
    {| requests := []; drawn := 0%nat; delays := []; console := [];
       database := initializeDatabase file |} in
  let '(st, results) :=
    getResults b w (Moment.subtractMonths 1 (today w)) (today w) st in
  match results with
  | Rejected error => (st, Rejected error)
  | Resolved developmentApplications =>
      let st := store b developmentApplications st in
      let '(st, r) := random w st in
      let randomMonth := randomMonth r (today w) in
      let '(st, results) :=
        getResults b w
          (Moment.subtractMonths (randomMonth + 1) (today w))
          (Moment.subtractMonths randomMonth (today w)) st in
      match results with
      | Rejected error => (st, Rejected error)
      | Resolved developmentApplications =>
          let st := store b developmentApplications st in
          (log (js "Complete.") st, Resolved tt)
      end
  end.

(** ** Vocabulary of the statements *)

(** What one heading contributes: the rows scanned from fresh variables, and
    the step run on an empty array and an empty console. *)
Definition scanRows (rows : list (jsstring * jsstring))
  : locals * list jsstring :=
  fold_left rowStep rows (initialLocals, []).

Definition headerResult (b : build) (now : Moment.ymd) (headerElement : cursor)
  : list developmentApplication * list jsstring :=
  headerStep b now ([], []) headerElement.

(** The three labels [getResults] looks for. *)
Definition keyTypeOfWork : jsstring := js "Type of Work".
Definition keyApplicationNo : jsstring := js "Application No.".
Definition keyDateLodged : jsstring := js "Date Lodged".

(** The value of the last row that carries [key], if any. *)
Fixpoint lastValue (key : jsstring) (rows : list (jsstring * jsstring))
  : option jsstring :=
  match rows with
  | [] => None
  | (k, v) :: rest =>
      match lastValue key rest with
      | Some v' => Some v'
      | None => if decide (k = key) then Some v else None
      end
  end.

(** The lines the scan of the rows writes: one for each row that carries
    the application number. *)
Definition foundLines (rows : list (jsstring * jsstring)) : list jsstring :=
  flat_map
    (fun row =>
       if decide (fst row = keyApplicationNo) then [foundMessage (snd row)]
       else [])
    rows.

(** The variables the scan leaves, read off the rows. *)
Definition lastValues (rows : list (jsstring * jsstring)) : locals :=
  {| l_applicationNumber := default [] (lastValue keyApplicationNo rows);
     l_description := default [] (lastValue keyTypeOfWork rows);
     l_receivedDate :=
       match lastValue keyDateLodged rows with
       | Some value => Moment.parse_D_MM_YYYY_strict value
       | None => Moment.invalid
       end |}.

(** The values a build binds for a row. *)
Definition rowValues (b : build) (da : developmentApplication)
  : list sqlValue :=
  match b with
  | ReplaceBuild => rowValues6 da
  | IgnoreBuild => rowValues7 da
  end.

Definition allWhitespace (s : jsstring) : bool := forallb is_whitespace s.

(** One space for a run of two or more whitespace characters, the character
    itself for a single one. *)
Definition collapsed (run : jsstring) : jsstring :=
  match run with
  | _ :: _ :: _ => [32]
  | _ => run
  end.


(** The text [s] reads day, slash, month, slash, year: one or two digits,
    two digits, four digits. *)
Definition matchesPattern (s day month year : jsstring) : Prop :=
  s = day ++ js "/" ++ month ++ js "/" ++ year
  /\ forallb Moment.isDigit day = true
  /\ (length day = 1%nat \/ length day = 2%nat)
  /\ forallb Moment.isDigit month = true /\ length month = 2%nat
  /\ forallb Moment.isDigit year = true /\ length year = 4%nat.

(** The Gregorian calendar: the length of month [m] (from 1) of year [y]. *)
Definition calendarDays (y m : Z) : Z :=
  if (m =? 2)%Z then
    if ((y mod 4 =? 0) && negb (y mod 100 =? 0) || (y mod 400 =? 0))%Z
    then 29%Z else 28%Z
  else if ((m =? 4) || (m =? 6) || (m =? 9) || (m =? 11))%Z then 30%Z
  else 31%Z.

Definition isCalendarDate (y m d : Z) : bool :=
  ((1 <=? m) && (m <=? 12) && (1 <=? d) && (d <=? calendarDays y m))%Z.

(** The digits of [n] with zeros in front up to width [w], the unsigned
    part of [zeroFill]. *)
Definition padded (w : nat) (n : N) : jsstring :=
  repeat 48 (w - length (Moment.decimal n)) ++ Moment.decimal n.

(** The description column of a stored row. *)
Definition descriptionColumn (row : list sqlValue) : sqlValue :=
  nth 2 row SqlNull.

(** ** A page of the council's markup

    One heading and the block after it, as the search page lays them out,
    with the text of the heading and the values of the three rows left
    open. *)
Definition spanElement (class value : jsstring) : node :=
  Element (js "span") [class] [Text value].

Definition rowElement (key value : jsstring) : node :=
  Element (js "p") [js "rowDataOnly"]
    [Text [10; 32]; spanElement (js "key") key; Text [32];
     spanElement (js "inputField") value; Text [10]].

Definition headingElement (text : jsstring) : node :=
  Element (js "h4") [js "non_table_headers"] [Text text].

Definition blockElement (rows : list (jsstring * jsstring)) : node :=
  Element (js "div") [] (map (fun row => rowElement (fst row) (snd row)) rows).

Definition fixtureRows (dateLodged : jsstring) : list (jsstring * jsstring) :=
  [(js "Type of Work", js "Shed");
   (js "Application No.", js "2019/0045");
   (js "Date Lodged", dateLodged)].

Definition fixturePage (dateLodged : jsstring) : document :=
  [Element (js "html") []
     [Element (js "head") [] [];
      Element (js "body") []
        [headingElement (js "12 Smith St, Loxton"); Text [10];
         blockElement (fixtureRows dateLodged); Text [10]]]].

(** The heading of that page as the outer loop meets it. *)
Definition fixtureHeading (dateLodged : jsstring) : cursor :=
  Cursor (headingElement (js "12 Smith St, Loxton"))
    [Text [10]; blockElement (fixtureRows dateLodged); Text [10]].

(** ** Vocabulary of the further statements *)

(** The first and the last application of a list that carry a reference
    number. *)
Definition firstWith (k : jsstring) (das : list developmentApplication)
  : option developmentApplication :=
  List.find (fun da => bool_decide (applicationNumber da = k)) das.

Definition lastWith (k : jsstring) (das : list developmentApplication)
  : option developmentApplication :=
  firstWith k (rev das).

(** The number of columns a build binds. *)
Definition columns (b : build) : nat :=
  match b with ReplaceBuild => 6%nat | IgnoreBuild => 7%nat end.

(** Every row of the table has the columns of the build, all of them text,
    and carries its own key in the first. *)
Definition isText (v : sqlValue) : bool :=
  match v with SqlText _ => true | SqlNull => false end.

Definition wellFormedTable (b : build) (database : table) : Prop :=
  forall k row, database !! k = Some row ->
    length row = columns b /\ head row = Some (SqlText k)
    /\ forallb isText row = true.

(** A character that is not whitespace. *)
Definition isInk (c : N) : bool := negb (is_whitespace c).

(** The labels [getResults] acts on. *)
Definition recognised (row : jsstring * jsstring) : bool :=
  bool_decide (fst row = keyTypeOfWork)
  || bool_decide (fst row = keyApplicationNo)
  || bool_decide (fst row = keyDateLodged).

(** A received date as the scraper renders one: four digits, two digits and
    two digits with dashes between, naming a date of the calendar. *)
Definition isoDate (s : jsstring) : Prop :=
  exists year month day,
    s = year ++ js "-" ++ month ++ js "-" ++ day
    /\ forallb Moment.isDigit year = true /\ length year = 4%nat
    /\ forallb Moment.isDigit month = true /\ length month = 2%nat
    /\ forallb Moment.isDigit day = true /\ length day = 2%nat
    /\ isCalendarDate (Moment.toInt year) (Moment.toInt month)
         (Moment.toInt day) = true.

(** The template of the search address around its two places. *)
Definition urlBefore : jsstring :=
  js "https://eservices.loxtonwaikerie.sa.gov.au/eservice/daEnquiry.do?number=&lodgeRangeType=on&dateFrom=".

Definition urlBetween : jsstring := js "&dateTo=".

Definition urlAfter : jsstring :=
  js "&detDateFromString=&detDateToString=&streetName=&suburb=0&unitNum=&houseNum=0%0D%0A%09%09%09%09%09&planNumber=&strataPlan=&lotNumber=&propertyName=&searchMode=A&submitButton=Search".

(** A date as the search address carries it: day, month and year with the
    slashes percent-encoded. *)
Definition encodedDate (v : Moment.ymd) : jsstring :=
  Moment.zeroFill (Moment.date v) 2 ++ js "%2F"
  ++ Moment.zeroFill (Moment.month v + 1) 2 ++ js "%2F"
  ++ Moment.zeroFill (Moment.year v) 4.

Definition searchAddress (dateFrom dateTo : Moment.ymd) : jsstring :=
  urlBefore ++ encodedDate dateFrom ++ urlBetween ++ encodedDate dateTo
  ++ urlAfter.

(** The digits and the minus sign, of which formatted numbers are made. *)
Definition isNumberChar (c : N) : bool := Moment.isDigit c || (c =? 45).

(** Months counted from year 0, and what makes a moment a date of the
    calendar. *)
Definition monthIndex (v : Moment.ymd) : Z :=
  (Moment.year v * 12 + Moment.month v)%Z.

Definition isCalendarMoment (v : Moment.ymd) : Prop :=
  (0 <= Moment.month v <= 11
   /\ 1 <= Moment.date v
      <= Moment.daysInMonth (Moment.year v) (Moment.month v))%Z.

(** The four addresses a run asks for when nothing fails, in order; the
    second random value drawn picks the month of the second range. *)
Definition firstAddress (w : world) : jsstring :=
  searchAddress (Moment.subtractMonths 1 (today w)) (today w).

Definition secondAddress (w : world) : jsstring :=
  let n := randomMonth (randoms w 1) (today w) in
  searchAddress (Moment.subtractMonths (n + 1) (today w))
    (Moment.subtractMonths n (today w)).

Definition plannedRequests (w : world) : list jsstring :=
  [DevelopmentApplicationMainUrl; firstAddress w;
   DevelopmentApplicationMainUrl; secondAddress w].

(** The records of a page. *)
Definition recordsOf (b : build) (w : world) (doc : document)
  : list developmentApplication :=
  fst (parseResults b (today w) doc).

(** What a run stores, by the answers it gets: nothing when the first
    cycle fails, the records of the first page when the second cycle fails,
    those of both pages otherwise. *)
Definition storedBatch (b : build) (w : world)
  : list developmentApplication :=
  match respond w 0 DevelopmentApplicationMainUrl with
  | Rejected _ => []
  | Resolved _ =>
      match respond w 1 (firstAddress w) with
      | Rejected _ => []
      | Resolved doc1 =>
          match respond w 2 DevelopmentApplicationMainUrl with
          | Rejected _ => recordsOf b w doc1
          | Resolved _ =>
              match respond w 3 (secondAddress w) with
              | Rejected _ => recordsOf b w doc1
              | Resolved doc2 => recordsOf b w doc1 ++ recordsOf b w doc2
              end
          end
      end
  end.



(** A server that answers every request with the page of C1, except the
    request numbered [failing], which it rejects. *)
Definition sampleWorld (failing : nat) : world :=
  {| today := Moment.mk 2019 2 31;
     randoms := fun _ => (7 # 10)%Q;
     respond := fun n _ =>
       if Nat.eqb n failing then Rejected (js "ECONNRESET")
       else Resolved (fixturePage (js "3/04/2019")) |}.

(** * Properties *)

(** ** Trimming and the collapse of whitespace runs *)

Section Whitespace.

Local Open Scope nat_scope.

Lemma trimStart_starts (s : jsstring) :
  startsWithWhitespace (trimStart s) = false.
Proof.
  induction s as [|c t IH]; simpl; [reflexivity|].
  destruct (is_whitespace c) eqn:E; [exact IH|simpl; exact E].
Qed.

Lemma trimStart_whitespace (l s : jsstring) :
  allWhitespace l = true -> trimStart (l ++ s) = trimStart s.
Proof.
  induction l as [|c t IH]; simpl; [reflexivity|].
  intros [Hc Ht]%andb_prop. rewrite Hc. auto.
Qed.

Lemma trimStart_id (s : jsstring) :
  startsWithWhitespace s = false -> trimStart s = s.
Proof. destruct s as [|c t]; simpl; [reflexivity|]. now intros ->. Qed.

(** A character that is not whitespace stops the trimming from the right. *)
Lemma trimStart_snoc (l : jsstring) (c : N) :
  is_whitespace c = false -> trimStart (l ++ [c]) = trimStart l ++ [c].
Proof.
  intros Hc. induction l as [|a t IH]; simpl.
  - now rewrite Hc.
  - destruct (is_whitespace a); [exact IH|reflexivity].
Qed.

Lemma trimEnd_cons (c : N) (t : jsstring) :
  is_whitespace c = false -> trimEnd (c :: t) = c :: trimEnd t.
Proof.
  intros Hc. unfold trimEnd. simpl.
  rewrite trimStart_snoc by exact Hc. now rewrite rev_app_distr.
Qed.

Lemma trimEnd_ends (s : jsstring) : endsWithWhitespace (trimEnd s) = false.
Proof.
  unfold endsWithWhitespace, trimEnd. rewrite rev_involutive.
  apply trimStart_starts.
Qed.

Lemma trimEnd_starts (s : jsstring) :
  startsWithWhitespace s = false -> startsWithWhitespace (trimEnd s) = false.
Proof.
  destruct s as [|c t]; simpl; [reflexivity|].
  intros Hc. rewrite trimEnd_cons by exact Hc. exact Hc.
Qed.

Lemma trimEnd_whitespace (s r : jsstring) :
  allWhitespace r = true -> trimEnd (s ++ r) = trimEnd s.
Proof.
  intros Hr. unfold trimEnd. rewrite rev_app_distr.
  rewrite trimStart_whitespace; [reflexivity|].
  unfold allWhitespace in *. rewrite forallb_forall in *.
  intros x Hx. apply Hr. now apply in_rev.
Qed.

Lemma trimEnd_id (s : jsstring) :
  endsWithWhitespace s = false -> trimEnd s = s.
Proof.
  intros H. unfold trimEnd. rewrite trimStart_id by exact H.
  apply rev_involutive.
Qed.

Lemma trim_clean (s : jsstring) :
  startsWithWhitespace (trim s) = false /\ endsWithWhitespace (trim s) = false.
Proof.
  split; [apply trimEnd_starts, trimStart_starts|apply trimEnd_ends].
Qed.

Lemma trim_padding (l m r : jsstring) :
  allWhitespace l = true -> allWhitespace r = true ->
  startsWithWhitespace m = false -> endsWithWhitespace m = false ->
  trim (l ++ m ++ r) = m.
Proof.
  intros Hl Hr Hs He. unfold trim.
  rewrite trimStart_whitespace by exact Hl.
  destruct m as [|c t].
  - simpl. rewrite <- (app_nil_r r), trimStart_whitespace by exact Hr.
    reflexivity.
  - simpl in Hs. change ((c :: t) ++ r) with (c :: (t ++ r)).
    simpl trimStart. rewrite Hs.
    change (c :: t ++ r) with ((c :: t) ++ r).
    rewrite trimEnd_whitespace by exact Hr. now apply trimEnd_id.
Qed.

(** Inside a matched run the output resumes at the next character that is
    not whitespace. *)
Lemma replaceRuns_true_starts (s : jsstring) :
  startsWithWhitespace (replaceRuns true s) = false.
Proof.
  induction s as [|c t IH]; simpl; [reflexivity|].
  destruct (is_whitespace c) eqn:E; [exact IH|simpl; exact E].
Qed.

Lemma replaceRuns_false_starts (s : jsstring) :
  startsWithWhitespace (replaceRuns false s) = startsWithWhitespace s.
Proof.
  destruct s as [|c t]; simpl; [reflexivity|].
  destruct (is_whitespace c) eqn:E; simpl; [|exact E].
  destruct (startsWithWhitespace t); simpl; [reflexivity|exact E].
Qed.

Lemma replaceRuns_no_adjacent (inRun : bool) (s : jsstring) :
  adjacentWhitespace (replaceRuns inRun s) = false.
Proof.
  revert inRun. induction s as [|c t IH]; intros inRun; simpl; [reflexivity|].
  destruct (is_whitespace c) eqn:E.
  - destruct inRun; [apply IH|].
    destruct (startsWithWhitespace t) eqn:Et; simpl.
    + now rewrite replaceRuns_true_starts, IH.
    + now rewrite replaceRuns_false_starts, Et, E, IH.
  - simpl. now rewrite E, IH.
Qed.

(** The scan is cut in two at any character that is not whitespace. *)
Lemma replaceRuns_split (inRun : bool) (l r : jsstring) (c : N) :
  is_whitespace c = false ->
  replaceRuns inRun (l ++ c :: r)
  = replaceRuns inRun l ++ c :: replaceRuns false r.
Proof.
  intros Hc. revert inRun. induction l as [|a t IH]; intros inRun; simpl.
  - now rewrite Hc.
  - destruct (is_whitespace a) eqn:Ea.
    + destruct inRun; [apply IH|].
      assert (Hs : startsWithWhitespace (t ++ c :: r) = startsWithWhitespace t).
      { destruct t; simpl; [exact Hc|reflexivity]. }
      rewrite Hs. destruct (startsWithWhitespace t); now rewrite IH.
    + now rewrite IH.
Qed.

Lemma replaceRuns_true_skip (run s : jsstring) :
  allWhitespace run = true ->
  replaceRuns true (run ++ s) = replaceRuns true s.
Proof.
  induction run as [|c t IH]; simpl; [reflexivity|].
  intros [Hc Ht]%andb_prop. rewrite Hc. auto.
Qed.

Lemma replaceRuns_mode (s : jsstring) :
  startsWithWhitespace s = false -> replaceRuns true s = replaceRuns false s.
Proof. destruct s as [|c t]; simpl; [reflexivity|]. now intros ->. Qed.

Lemma replaceRuns_run (run v : jsstring) :
  run <> [] -> allWhitespace run = true -> startsWithWhitespace v = false ->
  replaceRuns false (run ++ v) = collapsed run ++ replaceRuns false v.
Proof.
  intros Hne Hrun Hv. destruct run as [|a [|b t]]; [congruence| |].
  - simpl in *. rewrite andb_true_r in Hrun. now rewrite Hrun, Hv.
  - simpl in Hrun. apply andb_prop in Hrun as [Ha Hbt].
    change ((a :: b :: t) ++ v) with (a :: (b :: t) ++ v).
    simpl replaceRuns. rewrite Ha.
    apply andb_prop in Hbt as [Hb Ht]. rewrite Hb. simpl.
    rewrite replaceRuns_true_skip by exact Ht.
    now rewrite replaceRuns_mode.
Qed.

Lemma ends_snoc (u : jsstring) :
  endsWithWhitespace u = false ->
  u = [] \/ exists u' c, u = u' ++ [c] /\ is_whitespace c = false.
Proof.
  destruct u as [|a t] using rev_ind; [now left|].
  unfold endsWithWhitespace. rewrite rev_app_distr. simpl.
  intros H. right. eauto.
Qed.

Lemma replaceRuns_collapse (u run v : jsstring) :
  endsWithWhitespace u = false -> run <> [] -> allWhitespace run = true ->
  startsWithWhitespace v = false ->
  replaceRuns false (u ++ run ++ v)
  = replaceRuns false u ++ collapsed run ++ replaceRuns false v.
Proof.
  intros Hu Hne Hrun Hv.
  destruct (ends_snoc u Hu) as [->|(u' & c & -> & Hc)].
  - simpl. now apply replaceRuns_run.
  - rewrite <- !app_assoc. simpl.
    rewrite !replaceRuns_split by exact Hc. simpl.
    rewrite <- app_assoc. simpl. now rewrite replaceRuns_run.
Qed.

Lemma replaceRuns_ends (s : jsstring) :
  endsWithWhitespace s = false ->
  endsWithWhitespace (replaceRuns false s) = false.
Proof.
  intros Hs. destruct (ends_snoc s Hs) as [->|(u' & c & -> & Hc)].
  - reflexivity.
  - rewrite replaceRuns_split by exact Hc. simpl.
    unfold endsWithWhitespace. rewrite rev_app_distr. simpl. exact Hc.
Qed.

Lemma replaceRuns_plain (s : jsstring) :
  existsb is_whitespace s = false -> replaceRuns false s = s.
Proof.
  induction s as [|c t IH]; simpl; [reflexivity|].
  intros [Hc Ht]%orb_false_elim. rewrite Hc. now rewrite IH.
Qed.

End Whitespace.

(** ** The loops of the parsing stage *)

Section ParsingLoops.

Variables (b : build) (now : Moment.ymd).

Lemma isEmpty_true (s : jsstring) : isEmpty s = true <-> s = [].
Proof. destruct s; simpl; split; congruence. Qed.

Lemma isEmpty_false (s : jsstring) : isEmpty s = false <-> s <> [].
Proof. destruct s; simpl; split; congruence. Qed.

(** The console is only ever appended to. *)
Lemma rowStep_console (vars : locals) (console : list jsstring)
    (row : jsstring * jsstring) :
  rowStep (vars, console) row
  = (fst (rowStep (vars, []) row), console ++ snd (rowStep (vars, []) row)).
Proof.
  destruct row as [key value]. unfold rowStep.
  repeat case_decide; simpl; now rewrite ?app_nil_r.
Qed.

Lemma scan_console (rows : list (jsstring * jsstring)) (vars : locals)
    (console : list jsstring) :
  fold_left rowStep rows (vars, console)
  = (fst (fold_left rowStep rows (vars, [])),
     console ++ snd (fold_left rowStep rows (vars, []))).
Proof.
  revert vars console. induction rows as [|row rest IH]; intros vars console.
  - simpl. now rewrite app_nil_r.
  - cbn [fold_left]. rewrite rowStep_console.
    destruct (rowStep (vars, []) row) as [vars1 console1]. cbn [fst snd].
    rewrite (IH vars1 (console ++ console1)), (IH vars1 console1).
    cbn [fst snd]. now rewrite app_assoc.
Qed.

(** The variables after the scan: each holds the value of the last row with
    its key, or what it held before when there is no such row. *)
Lemma scan_last (rows : list (jsstring * jsstring)) (vars : locals)
    (console : list jsstring) :
  let vars' := fst (fold_left rowStep rows (vars, console)) in
  l_description vars'
  = default (l_description vars) (lastValue keyTypeOfWork rows)
  /\ l_applicationNumber vars'
     = default (l_applicationNumber vars) (lastValue keyApplicationNo rows)
  /\ l_receivedDate vars'
     = match lastValue keyDateLodged rows with
       | Some value => Moment.parse_D_MM_YYYY_strict value
       | None => l_receivedDate vars
       end.
Proof.
  revert vars console.
  induction rows as [|[key value] rest IH]; intros vars console.
  - simpl. auto.
  - cbn zeta. cbn [fold_left].
    specialize (IH (fst (rowStep (vars, console) (key, value)))
                  (snd (rowStep (vars, console) (key, value)))).
    rewrite <- surjective_pairing in IH. cbn zeta in IH.
    destruct IH as (IHd & IHa & IHr). rewrite IHd, IHa, IHr. clear IHd IHa IHr.
    cbn [lastValue]. unfold rowStep.
    fold keyTypeOfWork keyApplicationNo keyDateLodged.
    destruct (lastValue keyTypeOfWork rest), (lastValue keyApplicationNo rest),
      (lastValue keyDateLodged rest); simpl;
      repeat case_decide; subst; simpl; try discriminate; auto.
Qed.

(** One turn of the outer loop adds what the heading contributes. *)
Lemma headerStep_result (das : list developmentApplication)
    (console : list jsstring) (h : cursor) :
  headerStep b now (das, console) h
  = (das ++ fst (headerResult b now h), console ++ snd (headerResult b now h)).
Proof.
  unfold headerResult, headerStep.
  rewrite (scan_console (rowsOf h) initialLocals console).
  destruct (fold_left rowStep (rowsOf h) (initialLocals, [])) as [vars out].
  simpl.
  destruct (negb (isEmpty (l_applicationNumber vars)));
    destruct (isEmpty (normalizeAddress (text [here h]))); simpl;
    now rewrite ?app_nil_r, ?app_assoc.
Qed.

Lemma headers_fold (hs : list cursor) (das : list developmentApplication)
    (console : list jsstring) :
  fold_left (headerStep b now) hs (das, console)
  = (das ++ flat_map (fun h => fst (headerResult b now h)) hs,
     console ++ flat_map (fun h => snd (headerResult b now h)) hs).
Proof.
  revert das console. induction hs as [|h rest IH]; intros das console.
  - simpl. now rewrite !app_nil_r.
  - cbn [fold_left flat_map]. rewrite headerStep_result, IH.
    now rewrite !app_assoc.
Qed.

(** The array returned holds the contributions of the headings, in document
    order; so does the console. *)
Lemma parseResults_headers (doc : document) :
  parseResults b now doc
  = (flat_map (fun h => fst (headerResult b now h))
       (select h4_non_table_headers doc),
     flat_map (fun h => snd (headerResult b now h))
       (select h4_non_table_headers doc)).
Proof. unfold parseResults. now rewrite headers_fold. Qed.

(** What one heading contributes, by cases on the two tests. *)
Lemma headerResult_cases (h : cursor) :
  let vars := fst (scanRows (rowsOf h)) in
  let found := snd (scanRows (rowsOf h)) in
  let address := normalizeAddress (text [here h]) in
  headerResult b now h
  = if isEmpty (l_applicationNumber vars) then ([], found)
    else if isEmpty address then
      ([], found ++ [ignoringMessage (l_applicationNumber vars)])
    else ([makeApplication b now address vars], found).
Proof.
  cbn zeta. unfold headerResult, headerStep, scanRows.
  destruct (fold_left rowStep (rowsOf h) (initialLocals, [])) as [vars out].
  simpl.
  destruct (isEmpty (l_applicationNumber vars));
    destruct (isEmpty (normalizeAddress (text [here h]))); reflexivity.
Qed.

Lemma emitted_from_heading (doc : document) (da : developmentApplication) :
  In da (fst (parseResults b now doc)) ->
  exists h, In h (select h4_non_table_headers doc)
    /\ da = makeApplication b now (normalizeAddress (text [here h]))
              (fst (scanRows (rowsOf h)))
    /\ l_applicationNumber (fst (scanRows (rowsOf h))) <> []
    /\ normalizeAddress (text [here h]) <> [].
Proof.
  rewrite parseResults_headers. simpl. rewrite in_flat_map.
  intros (h & Hh & Hda). exists h. split; [exact Hh|].
  rewrite headerResult_cases in Hda. cbn zeta in Hda.
  destruct (isEmpty (l_applicationNumber (fst (scanRows (rowsOf h))))) eqn:Ea;
    [destruct Hda|].
  destruct (isEmpty (normalizeAddress (text [here h]))) eqn:Eb;
    [destruct Hda|].
  destruct Hda as [<-|[]].
  apply isEmpty_false in Ea, Eb. auto.
Qed.

End ParsingLoops.

(** ** The scan of the rows, read off the rows *)

Section RowScan.

Lemma scan_lines (rows : list (jsstring * jsstring)) (vars : locals)
    (console : list jsstring) :
  snd (fold_left rowStep rows (vars, console)) = console ++ foundLines rows.
Proof.
  revert vars console.
  induction rows as [|[key value] rest IH]; intros vars console.
  - simpl. now rewrite app_nil_r.
  - cbn [fold_left].
    rewrite (surjective_pairing (rowStep (vars, console) (key, value))).
    rewrite IH. unfold foundLines at 2. cbn [flat_map fst snd].
    fold (foundLines rest). unfold rowStep.
    fold keyTypeOfWork keyApplicationNo keyDateLodged.
    repeat case_decide; subst; try discriminate; cbn [snd];
      now rewrite <- ?app_assoc.
Qed.

Lemma scanRows_spec (rows : list (jsstring * jsstring)) :
  scanRows rows = (lastValues rows, foundLines rows).
Proof.
  unfold scanRows.
  rewrite (surjective_pairing (fold_left rowStep rows (initialLocals, []))).
  rewrite scan_lines. simpl app. f_equal.
  destruct (scan_last rows initialLocals []) as (Hd & Ha & Hr).
  destruct (fst (fold_left rowStep rows (initialLocals, []))) as [a d r].
  simpl in Hd, Ha, Hr. unfold lastValues. now subst.
Qed.

Lemma lastValue_app (key : jsstring) (l1 l2 : list (jsstring * jsstring)) :
  lastValue key (l1 ++ l2)
  = match lastValue key l2 with
    | Some v => Some v
    | None => lastValue key l1
    end.
Proof.
  induction l1 as [|[k v] t IH]; simpl.
  - now destruct (lastValue key l2).
  - rewrite IH. now destruct (lastValue key l2).
Qed.


Lemma foundLines_none (rows : list (jsstring * jsstring)) :
  lastValue keyApplicationNo rows = None -> foundLines rows = [].
Proof.
  induction rows as [|[k v] t IH]; simpl; [reflexivity|].
  destruct (lastValue keyApplicationNo t); [discriminate|].
  case_decide; [discriminate|]. intros _. now apply IH.
Qed.

End RowScan.

(** ** The store *)

Section Store.

Variable b : build.

Lemma insertRow_lookup (database : table) (da : developmentApplication)
    (k : jsstring) :
  fst (insertRow b database da) !! k = database !! k
  \/ (k = applicationNumber da
      /\ fst (insertRow b database da) !! k = Some (rowValues b da)).
Proof.
  destruct (decide (k = applicationNumber da)) as [->|Hne].
  - destruct b; simpl.
    + right. split; [reflexivity|]. apply lookup_insert_eq.
    + unfold insertOrIgnore.
      destruct (database !! applicationNumber da) eqn:E; simpl.
      * now left.
      * right. split; [reflexivity|]. apply lookup_insert_eq.
  - left. destruct b; simpl.
    + now apply lookup_insert_ne.
    + unfold insertOrIgnore.
      destruct (database !! applicationNumber da); simpl; [reflexivity|].
      now apply lookup_insert_ne.
Qed.

(** After the storing loop a key holds what it held before or the values of
    one of the applications stored. *)
Lemma insertAll_lookup (das : list developmentApplication) (database : table)
    (k : jsstring) :
  fst (insertAll b database das) !! k = database !! k
  \/ exists da, In da das /\ applicationNumber da = k
       /\ fst (insertAll b database das) !! k = Some (rowValues b da).
Proof.
  unfold insertAll. generalize (@nil jsstring) as console.
  revert database. induction das as [|da rest IH]; intros database console.
  - now left.
  - cbn [fold_left fst snd].
    pose proof (insertRow_lookup database da k) as Hrow.
    destruct (insertRow b database da) as [database1 line].
    cbn [fst] in Hrow.
    specialize (IH database1 (console ++ line)).
    set (final := fst (fold_left _ rest (database1, console ++ line))) in *.
    destruct IH as [H|(da' & Hin & Hk & H)].
    + destruct Hrow as [H1|[H1 H2]].
      * left. congruence.
      * right. exists da. split; [now left|]. split; [auto|congruence].
    + right. exists da'. split; [now right|]. auto.
Qed.

End Store.

(** ** The claims about the parsing stage *)

Section Fixture.

Variables (b : build) (now : Moment.ymd).

Lemma fixturePage_headings (dateLodged : jsstring) :
  select h4_non_table_headers (fixturePage dateLodged)
  = [fixtureHeading dateLodged].
Proof. reflexivity. Qed.

Lemma rowElement_key (key value : jsstring) :
  rowKey (rowElement key value) = trim key.
Proof.
  unfold rowKey.
  assert (H : children span_key (rowElement key value)
              = [spanElement (js "key") key]) by reflexivity.
  rewrite H. unfold text, spanElement. cbn [map concat textOf].
  now rewrite !app_nil_r.
Qed.

Lemma rowElement_value (key value : jsstring) :
  rowValue (rowElement key value) = trim value.
Proof.
  unfold rowValue.
  assert (H : children span_inputField (rowElement key value)
              = [spanElement (js "inputField") value]) by reflexivity.
  rewrite H. unfold text, spanElement. cbn [map concat textOf].
  now rewrite !app_nil_r.
Qed.

Lemma fixtureHeading_rows (dateLodged : jsstring) :
  rowsOf (fixtureHeading dateLodged) = fixtureRows (trim dateLodged).
Proof.
  unfold rowsOf.
  assert (Hn : next div_any (fixtureHeading dateLodged)
               = [blockElement (fixtureRows dateLodged)]) by reflexivity.
  rewrite Hn. cbn [flat_map]. rewrite app_nil_r.
  assert (Hf : find p_rowDataOnly (blockElement (fixtureRows dateLodged))
               = map (fun row => rowElement (fst row) (snd row))
                   (fixtureRows dateLodged)) by reflexivity.
  rewrite Hf. unfold fixtureRows. cbn [map fst snd].
  rewrite !rowElement_key, !rowElement_value. reflexivity.
Qed.

Lemma fixtureRows_values (dateLodged : jsstring) :
  lastValues (fixtureRows dateLodged)
  = {| l_applicationNumber := js "2019/0045";
       l_description := js "Shed";
       l_receivedDate := Moment.parse_D_MM_YYYY_strict dateLodged |}.
Proof. reflexivity. Qed.

(** What the page yields, whatever its Date Lodged row holds. *)
Lemma fixturePage_results (dateLodged : jsstring) :
  parseResults b now (fixturePage dateLodged)
  = ([makeApplication b now (js "12 Smith St, Loxton")
        (lastValues (fixtureRows (trim dateLodged)))],
     [foundMessage (js "2019/0045")]).
Proof.
  rewrite parseResults_headers, fixturePage_headings.
  cbn [flat_map]. rewrite !app_nil_r.
  rewrite headerResult_cases. cbn zeta.
  rewrite scanRows_spec, fixtureHeading_rows, fixtureRows_values.
  reflexivity.
Qed.

End Fixture.

(** C1. The page with the one heading 12 Smith St, Loxton and the three rows
    Type of Work = Shed, Application No. = 2019/0045, Date Lodged = 3/04/2019
    yields exactly one record, with that address, description and reference
    number and with received date 2019-04-03. *)
Theorem fixture_yields_one_record (b : build) (now : Moment.ymd) :
  parseResults b now (fixturePage (js "3/04/2019"))
  = ([ {| applicationNumber := js "2019/0045";
          address := js "12 Smith St, Loxton";
          description := js "Shed";
          informationUrl := DevelopmentApplicationMainUrl;
          commentUrl :=
            match b with
            | ReplaceBuild => None
            | IgnoreBuild => Some CommentUrl
            end;
          scrapeDate := Moment.format_YYYY_MM_DD (Some now);
          receivedDate := js "2019-04-03" |} ],
     [foundMessage (js "2019/0045")]).
Proof. rewrite fixturePage_results. destruct b; reflexivity. Qed.

(** C4. Acceptance policy.  A heading yields a record exactly when the
    reference number captured from its rows and its normalised address are
    both non-empty.  With a reference number and an empty address nothing is
    yielded and the warning is written; such a record is never stored.
    Without a row for the reference number (in particular without rows)
    nothing is yielded and nothing is written. *)
Theorem acceptance_policy (b : build) (now : Moment.ymd) (h : cursor) :
  let vars := lastValues (rowsOf h) in
  let headingAddress := normalizeAddress (text [here h]) in
  (fst (headerResult b now h) <> []
   <-> l_applicationNumber vars <> [] /\ headingAddress <> [])
  /\ (l_applicationNumber vars <> [] -> headingAddress <> [] ->
      headerResult b now h
      = ([makeApplication b now headingAddress vars], foundLines (rowsOf h)))
  /\ (l_applicationNumber vars <> [] -> headingAddress = [] ->
      headerResult b now h
      = ([], foundLines (rowsOf h)
             ++ [ignoringMessage (l_applicationNumber vars)]))
  /\ (lastValue keyApplicationNo (rowsOf h) = None ->
      headerResult b now h = ([], []))
  /\ (rowsOf h = [] -> headerResult b now h = ([], []))
  /\ (forall doc da, In da (fst (parseResults b now doc)) ->
      applicationNumber da <> [] /\ address da <> [])
  /\ (forall doc (database : table) k,
      fst (insertAll b database (fst (parseResults b now doc))) !! k
      <> database !! k ->
      exists da, In da (fst (parseResults b now doc))
        /\ applicationNumber da = k /\ k <> [] /\ address da <> []).
Proof.
  cbn zeta.
  pose proof (headerResult_cases b now h) as Hc. cbn zeta in Hc.
  rewrite scanRows_spec in Hc. cbn [fst snd] in Hc.
  assert (Hnone : lastValue keyApplicationNo (rowsOf h) = None ->
                  headerResult b now h = ([], [])).
  { intros Hn. rewrite Hc. unfold lastValues. cbn [l_applicationNumber].
    rewrite Hn. simpl. now rewrite foundLines_none. }
  assert (Hemit : forall doc da, In da (fst (parseResults b now doc)) ->
                  applicationNumber da <> [] /\ address da <> []).
  { intros doc da (h' & _ & -> & Ha & Hb)%emitted_from_heading. auto. }
  assert (Hiff : fst (headerResult b now h) <> []
                 <-> l_applicationNumber (lastValues (rowsOf h)) <> []
                     /\ normalizeAddress (text [here h]) <> []).
  { rewrite Hc, <- !isEmpty_false.
    destruct (isEmpty (l_applicationNumber _));
      destruct (isEmpty (normalizeAddress _)); simpl; intuition congruence. }
  refine (conj Hiff (conj _ (conj _ (conj Hnone (conj _ (conj Hemit _)))))).
  - intros Ha Hb. rewrite Hc.
    apply isEmpty_false in Ha, Hb. now rewrite Ha, Hb.
  - intros Ha Hb. rewrite Hc.
    apply isEmpty_false in Ha. apply isEmpty_true in Hb. now rewrite Ha, Hb.
  - intros Hr. apply Hnone. now rewrite Hr.
  - intros doc database k Hk.
    destruct (insertAll_lookup b (fst (parseResults b now doc)) database k)
      as [H|(da & Hin & Hka & _)]; [contradiction|].
    exists da. destruct (Hemit doc da Hin) as [Ha Hb].
    repeat split; auto. congruence.
Qed.

(** A heading whose block has a reference number but whose text is blank,
    and a heading followed by no block. *)
Lemma acceptance_policy_witness :
  headerResult ReplaceBuild (Moment.mk 2019 3 15)
    (Cursor (headingElement (js "  "))
       [blockElement (fixtureRows (js "3/04/2019"))])
  = ([], [foundMessage (js "2019/0045"); ignoringMessage (js "2019/0045")])
  /\ headerResult ReplaceBuild (Moment.mk 2019 3 15)
       (Cursor (headingElement (js "1 High St")) [])
     = ([], [])
  /\ fst (headerResult ReplaceBuild (Moment.mk 2019 3 15)
            (fixtureHeading (js "3/04/2019"))) <> [].
Proof.
  split; [|split].
  - apply (acceptance_policy ReplaceBuild (Moment.mk 2019 3 15)
             (Cursor (headingElement (js "  "))
                [blockElement (fixtureRows (js "3/04/2019"))])).
    + vm_compute. discriminate.
    + vm_compute. reflexivity.
  - apply (acceptance_policy ReplaceBuild (Moment.mk 2019 3 15)
             (Cursor (headingElement (js "1 High St")) [])).
    vm_compute. reflexivity.
  - apply (acceptance_policy ReplaceBuild (Moment.mk 2019 3 15)
             (fixtureHeading (js "3/04/2019"))).
    split; vm_compute; discriminate.
Defined.

(** C5. Address normalisation trims first and then collapses every run of
    two or more whitespace characters to one space; the result, and so the
    address of every record, has no whitespace at either end and no two
    whitespace characters in a row. *)
Theorem address_normalization :
  (forall l m r,
      allWhitespace l = true -> allWhitespace r = true ->
      startsWithWhitespace m = false -> endsWithWhitespace m = false ->
      normalizeAddress (l ++ m ++ r) = replaceRuns false m)
  /\ (forall u run v,
      endsWithWhitespace u = false -> run <> [] -> allWhitespace run = true ->
      startsWithWhitespace v = false ->
      replaceRuns false (u ++ run ++ v)
      = replaceRuns false u ++ collapsed run ++ replaceRuns false v)
  /\ (forall s, existsb is_whitespace s = false -> replaceRuns false s = s)
  /\ (forall text,
      startsWithWhitespace (normalizeAddress text) = false
      /\ endsWithWhitespace (normalizeAddress text) = false
      /\ adjacentWhitespace (normalizeAddress text) = false)
  /\ (forall b now doc da, In da (fst (parseResults b now doc)) ->
      startsWithWhitespace (address da) = false
      /\ endsWithWhitespace (address da) = false
      /\ adjacentWhitespace (address da) = false).
Proof.
  assert (Hclean : forall text,
      startsWithWhitespace (normalizeAddress text) = false
      /\ endsWithWhitespace (normalizeAddress text) = false
      /\ adjacentWhitespace (normalizeAddress text) = false).
  { intros text. unfold normalizeAddress.
    destruct (trim_clean text) as [Hs He]. repeat split.
    - now rewrite replaceRuns_false_starts.
    - now apply replaceRuns_ends.
    - apply replaceRuns_no_adjacent. }
  repeat split; try apply Hclean.
  - intros l m r Hl Hr Hs He. unfold normalizeAddress.
    now rewrite trim_padding.
  - apply replaceRuns_collapse.
  - apply replaceRuns_plain.
  - apply emitted_from_heading in H as (h & _ & -> & _). apply Hclean.
  - apply emitted_from_heading in H as (h & _ & -> & _). apply Hclean.
  - apply emitted_from_heading in H as (h & _ & -> & _). apply Hclean.
Qed.

Lemma address_normalization_witness :
  normalizeAddress (js "  " ++ js "12  Smith   St" ++ [9; 10])
  = replaceRuns false (js "12  Smith   St")
  /\ replaceRuns false (js "12" ++ js "  " ++ js "Smith   St")
     = replaceRuns false (js "12") ++ [32] ++ replaceRuns false (js "Smith   St")
  /\ replaceRuns false (js "12") = js "12"
  /\ adjacentWhitespace
       (address (makeApplication ReplaceBuild (Moment.mk 2019 3 15)
                   (js "12 Smith St, Loxton")
                   (lastValues (fixtureRows (js "3/04/2019"))))) = false.
Proof.
  destruct address_normalization as (H1 & H2 & H3 & _ & H5).
  split; [|split; [|split]].
  - apply H1; reflexivity.
  - apply (H2 (js "12") (js "  ") (js "Smith   St")); try reflexivity.
    discriminate.
  - apply H3. reflexivity.
  - apply (H5 ReplaceBuild (Moment.mk 2019 3 15)
             (fixturePage (js "3/04/2019"))).
    rewrite fixturePage_results. left. reflexivity.
Defined.

(** C6. The description of a record is never empty: when no row supplied
    one, or the row was empty, the record carries the placeholder, and so
    does the row stored for it. *)
Theorem description_never_empty (b : build) (now : Moment.ymd) :
  (forall headingAddress vars,
      description (makeApplication b now headingAddress vars) <> []
      /\ (l_description vars = [] ->
          description (makeApplication b now headingAddress vars)
          = js "No Description Provided")
      /\ (l_description vars <> [] ->
          description (makeApplication b now headingAddress vars)
          = l_description vars))
  /\ (forall h da,
      lastValue keyTypeOfWork (rowsOf h) = None
      \/ lastValue keyTypeOfWork (rowsOf h) = Some [] ->
      In da (fst (headerResult b now h)) ->
      description da = js "No Description Provided")
  /\ (forall doc da, In da (fst (parseResults b now doc)) ->
      description da <> [])
  /\ (forall doc (database : table) k,
      fst (insertAll b database (fst (parseResults b now doc))) !! k
      <> database !! k ->
      exists da text,
        fst (insertAll b database (fst (parseResults b now doc))) !! k
        = Some (rowValues b da)
        /\ descriptionColumn (rowValues b da) = SqlText text
        /\ text = description da /\ text <> []).
Proof.
  assert (Hmake : forall headingAddress vars,
      description (makeApplication b now headingAddress vars) <> []
      /\ (l_description vars = [] ->
          description (makeApplication b now headingAddress vars)
          = js "No Description Provided")
      /\ (l_description vars <> [] ->
          description (makeApplication b now headingAddress vars)
          = l_description vars)).
  { intros headingAddress vars. cbn [makeApplication description].
    destruct (l_description vars) as [|c t]; simpl.
    - split; [discriminate|]. split; [reflexivity|congruence].
    - split; [discriminate|]. split; [discriminate|reflexivity]. }
  assert (Hemit : forall doc da, In da (fst (parseResults b now doc)) ->
                  description da <> []).
  { intros doc da (h & _ & -> & _)%emitted_from_heading. apply Hmake. }
  refine (conj Hmake (conj _ (conj Hemit _))).
  - intros h da Hlast Hin.
    rewrite headerResult_cases, scanRows_spec in Hin. cbn zeta in Hin.
    cbn [fst snd] in Hin.
    destruct (isEmpty (l_applicationNumber _)); [destruct Hin|].
    destruct (isEmpty (normalizeAddress _)); [destruct Hin|].
    destruct Hin as [<-|[]]. apply Hmake.
    unfold lastValues. cbn [l_description].
    destruct Hlast as [-> | ->]; reflexivity.
  - intros doc database k Hk.
    destruct (insertAll_lookup b (fst (parseResults b now doc)) database k)
      as [H|(da & Hin & Hka & Hrow)]; [contradiction|].
    exists da, (description da). split; [exact Hrow|].
    split; [destruct b; reflexivity|]. split; [reflexivity|].
    now apply (Hemit doc).
Qed.

(** A block with an empty Type of Work row, and one without such a row. *)
Lemma description_never_empty_witness :
  description
    (makeApplication IgnoreBuild (Moment.mk 2019 3 15) (js "1 High St")
       (lastValues [(js "Type of Work", []); (js "Application No.", js "7")]))
  = js "No Description Provided"
  /\ Forall (fun da => description da = js "No Description Provided")
       (fst (headerResult IgnoreBuild (Moment.mk 2019 3 15)
               (Cursor (headingElement (js "1 High St"))
                  [blockElement [(js "Application No.", js "7")]]))).
Proof.
  split.
  - apply (description_never_empty IgnoreBuild (Moment.mk 2019 3 15)).
    reflexivity.
  - apply Forall_forall. intros da.
    apply (description_never_empty IgnoreBuild (Moment.mk 2019 3 15)).
    left. vm_compute. reflexivity.
Defined.

(** C7. Two inserts under one reference number.  With insert-or-ignore the
    second is skipped and the table stays as the first left it; with
    insert-or-replace the table ends as if only the second had been
    made. *)
Theorem upsert_conflict_policy (database : table)
    (first second : developmentApplication) :
  applicationNumber first = applicationNumber second ->
  (let once := fst (insertRow IgnoreBuild database first) in
   insertRow IgnoreBuild once second = (once, [skippedMessage second])
   /\ (database !! applicationNumber first = None ->
       once !! applicationNumber second = Some (rowValues7 first)))
  /\ (let once := fst (insertRow ReplaceBuild database first) in
      insertRow ReplaceBuild once second
      = (fst (insertRow ReplaceBuild database second), [savedMessage second])
      /\ fst (insertRow ReplaceBuild once second) !! applicationNumber first
         = Some (rowValues6 second)).
Proof.
  intros Hkey. cbn zeta. split; [split|split].
  - simpl. unfold insertOrIgnore. rewrite <- Hkey.
    destruct (database !! applicationNumber first) eqn:E; cbn [fst].
    + now rewrite E.
    + now rewrite lookup_insert_eq.
  - intros Hnew. simpl. unfold insertOrIgnore. rewrite Hnew, <- Hkey.
    apply lookup_insert_eq.
  - simpl. rewrite <- Hkey. now rewrite insert_insert_eq.
  - simpl. rewrite <- Hkey. apply lookup_insert_eq.
Qed.

Lemma upsert_conflict_policy_witness :
  let first :=
    makeApplication IgnoreBuild (Moment.mk 2019 3 15) (js "1 High St")
      (lastValues [(js "Application No.", js "7")]) in
  let second :=
    makeApplication IgnoreBuild (Moment.mk 2019 3 16) (js "2 Low St")
      (lastValues [(js "Application No.", js "7")]) in
  fst (insertRow IgnoreBuild (fst (insertRow IgnoreBuild ∅ first)) second)
    !! js "7" = Some (rowValues7 first)
  /\ fst (insertRow ReplaceBuild (fst (insertRow ReplaceBuild ∅ first)) second)
       !! js "7" = Some (rowValues6 second).
Proof.
  cbn zeta.
  pose proof (upsert_conflict_policy ∅
    (makeApplication IgnoreBuild (Moment.mk 2019 3 15) (js "1 High St")
       (lastValues [(js "Application No.", js "7")]))
    (makeApplication IgnoreBuild (Moment.mk 2019 3 16) (js "2 Low St")
       (lastValues [(js "Application No.", js "7")]))
    eq_refl) as [[Hi Hi'] [Hr Hr']].
  split.
  - rewrite Hi. apply Hi'. reflexivity.
  - exact Hr'.
Defined.



(** C9. When several rows under a heading carry the same label the last
    one decides: the variables after the scan hold the values of the last
    Type of Work, Application No. and Date Lodged rows, the record is made
    from these, and a Date Lodged row that does not parse overrides an
    earlier one that did. *)
Theorem last_row_wins (b : build) (now : Moment.ymd) :
  (forall rows, fst (scanRows rows) = lastValues rows)
  /\ (forall h da, In da (fst (headerResult b now h)) ->
      da = makeApplication b now (normalizeAddress (text [here h]))
             (lastValues (rowsOf h)))
  /\ (forall rows key value value',
      lastValue key (rows ++ [(key, value); (key, value')]) = Some value')
  /\ (forall rows value value',
      l_receivedDate
        (fst (scanRows (rows ++ [(keyDateLodged, value);
                                 (keyDateLodged, value')])))
      = Moment.parse_D_MM_YYYY_strict value').
Proof.
  assert (Hlast : forall rows key value value',
      lastValue key (rows ++ [(key, value); (key, value')]) = Some value').
  { intros rows key value value'. rewrite lastValue_app. cbn [lastValue].
    case_decide; [reflexivity|congruence]. }
  refine (conj _ (conj _ (conj Hlast _))).
  - intros rows. now rewrite scanRows_spec.
  - intros h da Hin.
    rewrite headerResult_cases, scanRows_spec in Hin. cbn zeta in Hin.
    cbn [fst snd] in Hin.
    destruct (isEmpty (l_applicationNumber _)); [destruct Hin|].
    destruct (isEmpty (normalizeAddress _)); [destruct Hin|].
    now destruct Hin as [<-|[]].
  - intros rows value value'. rewrite scanRows_spec. cbn [fst].
    unfold lastValues. cbn [l_receivedDate]. now rewrite Hlast.
Qed.

(** A block with two Date Lodged rows, the second one malformed. *)
Lemma last_row_wins_witness :
  Forall (fun da => applicationNumber da = js "8" /\ receivedDate da = [])
    (fst (headerResult ReplaceBuild (Moment.mk 2019 3 15)
            (Cursor (headingElement (js "1 High St"))
               [blockElement
                  [(js "Application No.", js "7");
                   (js "Application No.", js "8");
                   (js "Date Lodged", js "3/04/2019");
                   (js "Date Lodged", js "soon")]]))).
Proof.
  apply Forall_forall. intros da Hin.
  rewrite (proj1 (proj2 (last_row_wins ReplaceBuild (Moment.mk 2019 3 15)))
             _ da Hin).
  vm_compute. split; reflexivity.
Defined.

(** ** Dates: digits, the calendar, parsing and formatting *)

Module MomentFacts.

Import Moment.

Lemma isDigit_range (c : N) :
  isDigit c = true <-> (48 <= c <= 57)%N.
Proof. unfold isDigit. rewrite andb_true_iff, !N.leb_le. tauto. Qed.

Lemma digitsValue_snoc (ds : jsstring) (c : N) :
  digitsValue (ds ++ [c]) = (10 * digitsValue ds + (c - 48))%N.
Proof. unfold digitsValue. now rewrite fold_left_app. Qed.

(** Enough fuel is enough: the digits do not depend on it. *)
Lemma decimalFuel_enough (f f' : nat) (n : N) :
  (n < 2 ^ N.of_nat f)%N -> (n < 2 ^ N.of_nat f')%N ->
  decimalFuel f n = decimalFuel f' n.
Proof.
  revert f' n. induction f as [|g IH]; intros f' n Hf Hf'.
  - change (2 ^ N.of_nat 0)%N with 1%N in Hf.
    assert (n = 0%N) by lia. subst n. now destruct f'.
  - cbn [decimalFuel]. destruct (n <? 10)%N eqn:E.
    + destruct f'; cbn [decimalFuel]; [reflexivity|now rewrite E].
    + apply N.ltb_ge in E. destruct f' as [|g'].
      * change (2 ^ N.of_nat 0)%N with 1%N in Hf'. lia.
      * cbn [decimalFuel]. apply N.ltb_ge in E. rewrite E. f_equal.
        rewrite Nat2N.inj_succ, N.pow_succ_r' in Hf, Hf'.
        apply N.ltb_ge in E.
        apply IH; apply N.Div0.div_lt_upper_bound; lia.
Qed.

Lemma decimal_small (n : N) : (n < 10)%N -> decimal n = [(48 + n)%N].
Proof.
  intros Hn. unfold decimal.
  destruct (N.to_nat (N.size n)); cbn [decimalFuel]; [reflexivity|].
  apply N.ltb_lt in Hn. now rewrite Hn.
Qed.

Lemma decimal_step (n : N) :
  (10 <= n)%N -> decimal n = decimal (n / 10) ++ [(48 + n mod 10)%N].
Proof.
  intros Hn. unfold decimal.
  destruct (N.to_nat (N.size n)) as [|g] eqn:Eg.
  - pose proof (N.size_gt n) as Hs.
    assert (N.size n = 0%N) by lia. rewrite H in Hs. simpl in Hs. lia.
  - cbn [decimalFuel]. apply N.ltb_ge in Hn. rewrite Hn. f_equal.
    apply N.ltb_ge in Hn.
    apply decimalFuel_enough.
    + pose proof (N.size_gt n) as Hs.
      replace (N.size n) with (N.succ (N.of_nat g)) in Hs by lia.
      rewrite N.pow_succ_r' in Hs.
      apply N.Div0.div_lt_upper_bound. lia.
    + rewrite N2Nat.id. apply N.size_gt.
Qed.

Lemma repeat_snoc (x : N) (k : nat) : repeat x k ++ [x] = repeat x (S k).
Proof. induction k; simpl in *; congruence. Qed.

(** Formatting the value of a run of digits to at least its own width gives
    the run back, with zeros in front. *)
Lemma padded_digits (ds : jsstring) :
  ds <> [] -> forallb isDigit ds = true ->
  forall w, (length ds <= w)%nat ->
  padded w (digitsValue ds) = repeat 48%N (w - length ds) ++ ds.
Proof.
  induction ds as [|c ds' IH] using rev_ind; [easy|].
  intros _ Hd w Hw. rewrite forallb_app in Hd.
  apply andb_prop in Hd as [Hd' Hc]. simpl in Hc. rewrite andb_true_r in Hc.
  apply isDigit_range in Hc.
  rewrite length_app in *. simpl in Hw.
  rewrite digitsValue_snoc.
  destruct ds' as [|c0 t].
  - change (digitsValue []) with 0%N. unfold padded.
    rewrite decimal_small by lia. cbn [length app].
    replace (48 + (10 * 0 + (c - 48)))%N with c by lia.
    repeat (f_equal; try lia).
  - remember (c0 :: t) as ds'. assert (Hne : ds' <> []) by (subst; discriminate).
    specialize (IH Hne Hd').
    destruct (N.eq_dec (digitsValue ds') 0) as [Hz|Hnz].
    + rewrite Hz in *. unfold padded. rewrite decimal_small by lia.
      pose proof (IH (length ds') (Nat.le_refl _)) as Hzero.
      unfold padded in Hzero. rewrite decimal_small in Hzero by lia.
      rewrite Nat.sub_diag in Hzero. simpl in Hzero.
      rewrite repeat_snoc in Hzero.
      assert (Hlen : length ds' = S (length ds' - 1)).
      { destruct ds'; [congruence|simpl; lia]. }
      rewrite <- Hlen in Hzero. rewrite <- Hzero at 2.
      rewrite app_assoc, <- repeat_app. simpl.
      replace (48 + (10 * 0 + (c - 48)))%N with c by lia.
      repeat f_equal. lia.
    + set (a := digitsValue ds') in *.
      assert (Hdiv : ((10 * a + (c - 48)) / 10 = a)%N).
      { symmetry. apply (N.div_unique _ 10 a (c - 48)); lia. }
      assert (Hmod : ((10 * a + (c - 48)) mod 10 = c - 48)%N).
      { symmetry. apply (N.mod_unique _ 10 a (c - 48)); lia. }
      unfold padded. rewrite decimal_step by lia. rewrite Hdiv, Hmod.
      rewrite length_app. simpl length.
      replace (w - (length (decimal a) + 1))%nat
        with ((w - 1) - length (decimal a))%nat by lia.
      rewrite app_assoc. fold (padded (w - 1) a).
      rewrite IH by lia. rewrite <- app_assoc.
      replace (48 + (c - 48))%N with c by lia.
      f_equal. f_equal. lia.
Qed.

Lemma zeroFill_digits (ds : jsstring) (w : nat) :
  ds <> [] -> forallb isDigit ds = true -> (length ds <= w)%nat ->
  zeroFill (toInt ds) w = repeat 48%N (w - length ds) ++ ds.
Proof.
  intros Hne Hd Hw. unfold zeroFill, toInt.
  rewrite Zabs2N.id.
  assert (Hs : (Z.of_N (digitsValue ds) <? 0)%Z = false)
    by (apply Z.ltb_ge; lia).
  rewrite Hs. simpl app. now apply padded_digits.
Qed.

End MomentFacts.

Module ParseFacts.

Import Moment MomentFacts.

Local Open Scope Z_scope.

(** The library's month lengths are those of the calendar. *)
Lemma daysInMonth_calendar (y m : Z) :
  0 <= y -> 1 <= m <= 12 -> daysInMonth y (m - 1) = calendarDays y m.
Proof.
  intros Hy Hm. unfold daysInMonth, calendarDays.
  rewrite (Z.mod_small (m - 1) 12) by lia.
  replace (m - 1 - (m - 1)) with 0 by lia.
  change (0 / 12) with 0. rewrite Z.add_0_r.
  destruct (Z.eqb_spec (m - 1) 1) as [E|E].
  - replace m with 2 by lia. cbn [Z.eqb Pos.eqb].
    unfold isLeapYear. now rewrite !Z.rem_mod_nonneg by lia.
  - destruct (Z.eqb_spec m 2) as [E2|_]; [lia|].
    assert (Hcases : m = 1 \/ m = 3 \/ m = 4 \/ m = 5 \/ m = 6 \/ m = 7
                     \/ m = 8 \/ m = 9 \/ m = 10 \/ m = 11 \/ m = 12) by lia.
    repeat (destruct Hcases as [->|Hcases]; [reflexivity|]).
    now subst m.
Qed.

Lemma fromArray_calendar (y m d : Z) :
  0 <= y -> fromArray y (m - 1) d
  = if isCalendarDate y m d then Some (mk y (m - 1) d) else None.
Proof.
  intros Hy. unfold fromArray, isCalendarDate.
  destruct (Z.ltb_spec (m - 1) 0); destruct (Z.ltb_spec 11 (m - 1));
    destruct (Z.leb_spec 1 m); destruct (Z.leb_spec m 12);
    try lia; cbn [orb andb]; try reflexivity.
  rewrite daysInMonth_calendar by lia.
  destruct (Z.ltb_spec d 1); destruct (Z.leb_spec 1 d); try lia;
    cbn [orb andb]; [reflexivity|].
  destruct (Z.ltb_spec (calendarDays y m) d);
    destruct (Z.leb_spec d (calendarDays y m)); try lia; reflexivity.
Qed.

Lemma toInt_nonneg (ds : jsstring) : 0 <= toInt ds.
Proof. unfold toInt. lia. Qed.

(** What each matcher consumed. *)
Lemma match1to2_inv (s d r : jsstring) :
  match1to2 s = Some (d, r) ->
  s = d ++ r /\ forallb isDigit d = true
  /\ (length d = 1%nat \/ length d = 2%nat).
Proof.
  destruct s as [|a [|c t]]; cbn [match1to2]; [discriminate| |].
  - destruct (isDigit a) eqn:Ea; [|discriminate].
    intros [= <- <-]. simpl. rewrite Ea. auto.
  - destruct (isDigit a) eqn:Ea; [|discriminate].
    destruct (isDigit c) eqn:Ec; intros [= <- <-]; simpl;
      rewrite Ea, ?Ec; auto.
Qed.

Lemma match2_inv (s d r : jsstring) :
  match2 s = Some (d, r) ->
  s = d ++ r /\ forallb isDigit d = true /\ length d = 2%nat.
Proof.
  destruct s as [|a [|c t]]; cbn [match2]; try discriminate.
  destruct (isDigit a && isDigit c)%bool eqn:E; [|discriminate].
  intros [= <- <-]. simpl. rewrite andb_true_r. auto.
Qed.

Lemma match4_inv (s d r : jsstring) :
  match4 s = Some (d, r) ->
  s = d ++ r /\ forallb isDigit d = true /\ length d = 4%nat.
Proof.
  destruct s as [|a [|c [|e [|f t]]]]; cbn [match4]; try discriminate.
  destruct (isDigit a && isDigit c && isDigit e && isDigit f)%bool eqn:E;
    [|discriminate].
  intros [= <- <-]. simpl. rewrite andb_true_r, !andb_assoc. auto.
Qed.

Lemma matchLiteral_inv (l : N) (s x r : jsstring) :
  matchLiteral l s = Some (x, r) -> s = l :: r.
Proof.
  destruct s as [|a t]; cbn [matchLiteral]; [discriminate|].
  destruct (N.eqb_spec a l); [|discriminate]. intros [= <- <-]. congruence.
Qed.

(** A parse that succeeds read a text of the pattern that names a date of
    the calendar. *)
Lemma parse_Some_inv (s : jsstring) (v : ymd) :
  parse_D_MM_YYYY_strict s = Some v ->
  exists day month year,
    matchesPattern s day month year
    /\ isCalendarDate (toInt year) (toInt month) (toInt day) = true.
Proof.
  unfold parse_D_MM_YYYY_strict.
  destruct (match1to2 s) as [[day s1]|] eqn:E1; [|discriminate].
  cbn [mbind option_bind].
  destruct (matchLiteral 47 s1) as [[x1 s2]|] eqn:E2; [|discriminate].
  cbn [mbind option_bind].
  destruct (match2 s2) as [[month s3]|] eqn:E3; [|discriminate].
  cbn [mbind option_bind].
  destruct (matchLiteral 47 s3) as [[x2 s4]|] eqn:E4; [|discriminate].
  cbn [mbind option_bind].
  destruct (match4 s4) as [[year s5]|] eqn:E5; [|discriminate].
  cbn [mbind option_bind].
  destruct s5 as [|? ?]; [|discriminate].
  rewrite fromArray_calendar by apply toInt_nonneg.
  destruct (isCalendarDate _ _ _) eqn:Ec; [|discriminate]. intros _.
  apply match1to2_inv in E1 as (-> & Hd & Hld).
  apply matchLiteral_inv in E2 as ->.
  apply match2_inv in E3 as (-> & Hm & Hlm).
  apply matchLiteral_inv in E4 as ->.
  apply match4_inv in E5 as (-> & Hy & Hly).
  exists day, month, year. split; [|exact Ec].
  unfold matchesPattern. rewrite app_nil_r. repeat split; auto.
Qed.

(** A text of the pattern is read token by token. *)
Lemma parse_pattern (s day month year : jsstring) :
  matchesPattern s day month year ->
  parse_D_MM_YYYY_strict s
  = fromArray (toInt year) (toInt month - 1) (toInt day).
Proof.
  intros (-> & Hd & Hld & Hm & Hlm & Hy & Hly).
  destruct month as [|m1 [|m2 [|]]]; try discriminate.
  destruct year as [|y1 [|y2 [|y3 [|y4 [|]]]]]; try discriminate.
  cbn [forallb] in Hm, Hy. rewrite andb_true_r in Hm, Hy.
  apply andb_prop in Hm as [Hm1 Hm2].
  apply andb_prop in Hy as [Hy1 [Hy2 [Hy3 Hy4]%andb_prop]%andb_prop].
  assert (Hrest : forall r,
    ('(_, s2) ← matchLiteral 47 (js "/" ++ [m1; m2] ++ js "/" ++ [y1; y2; y3; y4]);
     '(m, s3) ← match2 s2;
     '(_, s4) ← matchLiteral 47 s3;
     '(y, s5) ← match4 s4;
     match s5 with
     | [] => fromArray (toInt y) (toInt m - 1) r
     | _ :: _ => None
     end)
    = fromArray (toInt [y1; y2; y3; y4]) (toInt [m1; m2] - 1) r).
  { intros r. cbn [js map list_ascii_of_string app matchLiteral].
    change (N_of_ascii "/") with 47%N. cbn [N.eqb Pos.eqb mbind option_bind].
    cbn [match2]. rewrite Hm1, Hm2. cbn [andb mbind option_bind matchLiteral].
    cbn [N.eqb Pos.eqb mbind option_bind match4].
    rewrite Hy1, Hy2, Hy3, Hy4. reflexivity. }
  unfold parse_D_MM_YYYY_strict.
  destruct Hld as [Hld|Hld].
  - destruct day as [|d1 [|]]; try discriminate.
    cbn [forallb] in Hd. rewrite andb_true_r in Hd.
    cbn [app js map list_ascii_of_string match1to2].
    change (N_of_ascii "/") with 47%N. rewrite Hd.
    change (isDigit 47) with false. cbn [mbind option_bind].
    apply (Hrest (toInt [d1])).
  - destruct day as [|d1 [|d2 [|]]]; try discriminate.
    cbn [forallb] in Hd. rewrite andb_true_r in Hd.
    apply andb_prop in Hd as [Hd1 Hd2].
    cbn [app match1to2]. rewrite Hd1, Hd2. cbn [mbind option_bind].
    apply (Hrest (toInt [d1; d2])).
Qed.

End ParseFacts.

(** C3, as the code has it.  A text of the pattern D/MM/YYYY or DD/MM/YYYY
    that names a date of the calendar (a month from 01 to 12 and a day that
    the month has) parses to that date, and the received date rendered from
    it is the same year, month and day as YYYY-MM-DD; every other text
    parses to the invalid moment and the received date rendered is empty.
    Parsing is a total function: there is no input on which it fails to
    return. *)
Theorem strict_date_parsing :
  (forall s day month year,
      matchesPattern s day month year ->
      isCalendarDate (Moment.toInt year) (Moment.toInt month)
        (Moment.toInt day) = true ->
      Moment.parse_D_MM_YYYY_strict s
      = Some (Moment.mk (Moment.toInt year) (Moment.toInt month - 1)
                (Moment.toInt day))
      /\ receivedDateText (Moment.parse_D_MM_YYYY_strict s)
         = year ++ js "-" ++ month ++ js "-"
           ++ repeat 48 (2 - length day) ++ day)
  /\ (forall s,
      ~ (exists day month year,
           matchesPattern s day month year
           /\ isCalendarDate (Moment.toInt year) (Moment.toInt month)
                (Moment.toInt day) = true) ->
      Moment.parse_D_MM_YYYY_strict s = Moment.invalid
      /\ receivedDateText (Moment.parse_D_MM_YYYY_strict s) = []).
Proof.
  split.
  - intros s day month year Hp Hc.
    rewrite (ParseFacts.parse_pattern s day month year Hp).
    rewrite ParseFacts.fromArray_calendar by apply ParseFacts.toInt_nonneg.
    rewrite Hc. split; [reflexivity|].
    destruct Hp as (_ & Hd & Hld & Hm & Hlm & Hy & Hly).
    unfold receivedDateText. cbn [Moment.isValid Moment.format_YYYY_MM_DD].
    cbn [Moment.year Moment.month Moment.date].
    rewrite Z.sub_add.
    rewrite (MomentFacts.zeroFill_digits year 4), Hly;
      [|destruct year; [discriminate|congruence]|exact Hy|lia].
    rewrite (MomentFacts.zeroFill_digits month 2), Hlm;
      [|destruct month; [discriminate|congruence]|exact Hm|lia].
    rewrite (MomentFacts.zeroFill_digits day 2);
      [|destruct day; [simpl in Hld; lia|congruence]|exact Hd|lia].
    reflexivity.
  - intros s Hnot.
    destruct (Moment.parse_D_MM_YYYY_strict s) as [v|] eqn:E.
    + exfalso. apply Hnot. now apply (ParseFacts.parse_Some_inv s v).
    + split; reflexivity.
Qed.

Lemma strict_date_parsing_witness :
  receivedDateText (Moment.parse_D_MM_YYYY_strict (js "3/04/2019"))
  = js "2019-04-03".
Proof.
  apply (proj1 strict_date_parsing (js "3/04/2019")
           (js "3") (js "04") (js "2019")).
  - unfold matchesPattern. repeat split; auto.
  - reflexivity.
Defined.

(** C3 as stated fails: 31/02/2019 has the pattern DD/MM/YYYY, and strict
    parsing rejects it, February having no 31st day. *)
Lemma pattern_alone_does_not_parse :
  matchesPattern (js "31/02/2019") (js "31") (js "02") (js "2019")
  /\ Moment.isValid (Moment.parse_D_MM_YYYY_strict (js "31/02/2019")) = false.
Proof. unfold matchesPattern. repeat split; auto. Qed.

(** ** Random numbers and the months of [main] *)

Section Random.

Local Open Scope Q_scope.

Variable r : Q.
Hypothesis r_lower : 0 <= r.
Hypothesis r_upper : r < 1.

Lemma getRandom_integers (minimum maximum : Z) :
  getRandom r (inject_Z minimum) (inject_Z maximum)
  = (Qfloor (r * inject_Z (maximum - minimum)) + minimum)%Z.
Proof. unfold getRandom. now rewrite Qfloor_Z, Qceiling_Z. Qed.

Lemma scaled_range (n : Z) :
  (0 < n)%Z -> (0 <= Qfloor (r * inject_Z n) < n)%Z.
Proof.
  intros Hn.
  assert (Hn' : inject_Z 0 < inject_Z n) by (rewrite <- Zlt_Qlt; exact Hn).
  change (inject_Z 0) with 0 in Hn'.
  split.
  - change 0%Z with (Qfloor 0). apply Qfloor_resp_le.
    apply Qmult_le_0_compat; [exact r_lower|now apply Qlt_le_weak].
  - rewrite Zlt_Qlt. apply (Qle_lt_trans _ (r * inject_Z n)).
    + apply Qfloor_le.
    + rewrite <- (Qmult_1_l (inject_Z n)) at 2.
      now apply Qmult_lt_compat_r.
Qed.

Lemma getRandom_range (minimum maximum : Z) :
  (minimum < maximum)%Z ->
  (minimum <= getRandom r (inject_Z minimum) (inject_Z maximum) < maximum)%Z.
Proof.
  intros H. rewrite getRandom_integers.
  pose proof (scaled_range (maximum - minimum)). lia.
Qed.

End Random.



Lemma randomMonth_range (r : Q) (now : Moment.ymd) :
  (0 <= r)%Q -> (r < 1)%Q -> (1 <= monthCount now)%Z ->
  (1 <= randomMonth r now <= monthCount now)%Z.
Proof.
  intros Hl Hu Hm. unfold randomMonth.
  pose proof (getRandom_range r Hl Hu 1 (monthCount now + 1)). lia.
Qed.






(** * Further properties *)

Set Warnings "-clear-no-such-hyp".

(** ** The storing loop *)

Section StoreLoop.

Variable b : build.

Lemma insertAll_console (das : list developmentApplication) (database : table)
    (console : list jsstring) :
  fold_left
    (fun acc da =>
       let '(database', line) := insertRow b (fst acc) da in
       (database', snd acc ++ line))
    das (database, console)
  = (fst (insertAll b database das), console ++ snd (insertAll b database das)).
Proof.
  unfold insertAll. revert database console.
  induction das as [|da rest IH]; intros database console.
  - simpl. now rewrite app_nil_r.
  - cbn [fold_left fst snd].
    destruct (insertRow b database da) as [database1 line].
    rewrite (IH database1 (console ++ line)), (IH database1 ([] ++ line)).
    cbn [fst snd app]. now rewrite app_assoc.
Qed.

Lemma insertAll_nil (database : table) :
  insertAll b database [] = (database, []).
Proof. reflexivity. Qed.

Lemma insertAll_cons (da : developmentApplication)
    (rest : list developmentApplication) (database : table) :
  insertAll b database (da :: rest)
  = (fst (insertAll b (fst (insertRow b database da)) rest),
     snd (insertRow b database da)
     ++ snd (insertAll b (fst (insertRow b database da)) rest)).
Proof.
  unfold insertAll at 1. cbn [fold_left fst snd].
  destruct (insertRow b database da) as [database1 line].
  cbn [fst snd app]. apply insertAll_console.
Qed.

End StoreLoop.

(** Storing two batches one after the other is storing their
    concatenation: the table and the console lines are the same. *)
Lemma insertAll_app (b : build) (database : table)
    (das1 das2 : list developmentApplication) :
  insertAll b database (das1 ++ das2)
  = (fst (insertAll b (fst (insertAll b database das1)) das2),
     snd (insertAll b database das1)
     ++ snd (insertAll b (fst (insertAll b database das1)) das2)).
Proof.
  unfold insertAll at 1. rewrite fold_left_app.
  fold (insertAll b database das1).
  rewrite (surjective_pairing (insertAll b database das1)) at 1.
  apply insertAll_console.
Qed.

Lemma insertOrIgnore_lookup (key : jsstring) (values : list sqlValue)
    (database : table) (k : jsstring) :
  fst (insertOrIgnore key values database) !! k
  = match database !! k with
    | Some row => Some row
    | None => if decide (key = k) then Some values else None
    end.
Proof.
  unfold insertOrIgnore.
  destruct (database !! key) eqn:E; cbn [fst].
  - destruct (database !! k) eqn:Ek; [reflexivity|].
    case_decide; [congruence|reflexivity].
  - rewrite lookup_insert. case_decide.
    + subst. now rewrite E.
    + now destruct (database !! k).
Qed.

Lemma firstWith_cons (k : jsstring) (da : developmentApplication)
    (rest : list developmentApplication) :
  firstWith k (da :: rest)
  = if decide (applicationNumber da = k) then Some da else firstWith k rest.
Proof.
  unfold firstWith. cbn [List.find].
  case_decide; [now rewrite bool_decide_eq_true_2
               |now rewrite bool_decide_eq_false_2].
Qed.

Lemma firstWith_app (k : jsstring) (l1 l2 : list developmentApplication) :
  firstWith k (l1 ++ l2)
  = match firstWith k l1 with
    | Some da => Some da
    | None => firstWith k l2
    end.
Proof.
  induction l1 as [|da rest IH]; [reflexivity|].
  change ((da :: rest) ++ l2) with (da :: (rest ++ l2)).
  rewrite !firstWith_cons. now case_decide.
Qed.

Lemma lastWith_snoc (k : jsstring) (l : list developmentApplication)
    (da : developmentApplication) :
  lastWith k (l ++ [da])
  = if decide (applicationNumber da = k) then Some da else lastWith k l.
Proof.
  unfold lastWith. rewrite rev_app_distr. cbn [rev app].
  apply firstWith_cons.
Qed.

(** The build that inserts with insert-or-ignore never changes a row
    that is already stored, and of several applications with one reference
    number it stores the first. *)
Lemma insertAll_ignore_lookup (database : table)
    (das : list developmentApplication) (k : jsstring) :
  fst (insertAll IgnoreBuild database das) !! k
  = match database !! k with
    | Some row => Some row
    | None => rowValues7 <$> firstWith k das
    end.
Proof.
  revert database. induction das as [|da rest IH]; intros database.
  - cbn. now destruct (database !! k).
  - rewrite insertAll_cons. cbn [fst]. rewrite IH. cbn [insertRow].
    rewrite (surjective_pairing (insertOrIgnore _ _ _)). cbn [fst].
    rewrite insertOrIgnore_lookup, firstWith_cons.
    destruct (database !! k); [reflexivity|].
    now case_decide.
Qed.

(** The build that inserts with insert-or-replace ends with, under each
    reference number of the batch, the row of the last application that
    carries it; the other rows are as they were. *)
Lemma insertAll_replace_lookup (database : table)
    (das : list developmentApplication) (k : jsstring) :
  fst (insertAll ReplaceBuild database das) !! k
  = match lastWith k das with
    | Some da => Some (rowValues6 da)
    | None => database !! k
    end.
Proof.
  induction das as [|da rest IH] using rev_ind; [reflexivity|].
  rewrite insertAll_app. cbn [fst]. rewrite insertAll_cons, insertAll_nil.
  cbn [fst insertRow insertOrReplace]. rewrite lastWith_snoc, lookup_insert.
  case_decide; [reflexivity|exact IH].
Qed.

Lemma insertRow_dom (b : build) (database : table)
    (da : developmentApplication) :
  dom (fst (insertRow b database da)) = {[applicationNumber da]} ∪ dom database.
Proof.
  destruct b; cbn [insertRow insertOrReplace fst].
  - apply dom_insert_L.
  - unfold insertOrIgnore.
    destruct (database !! applicationNumber da) eqn:E; cbn [fst].
    + apply (elem_of_dom_2 (D := gset (list N))) in E. set_solver.
    + apply dom_insert_L.
Qed.

(** After the storing loop the table holds exactly the reference
    numbers it held before and those of the batch: nothing is deleted. *)
Lemma insertAll_dom (b : build) (database : table)
    (das : list developmentApplication) :
  dom (fst (insertAll b database das))
  = dom database ∪ list_to_set (map applicationNumber das).
Proof.
  revert database. induction das as [|da rest IH]; intros database.
  - cbn. set_solver.
  - rewrite insertAll_cons. cbn [fst]. rewrite IH, insertRow_dom.
    cbn [map list_to_set]. set_solver.
Qed.

Lemma insertAll_replace_console (database : table)
    (das : list developmentApplication) :
  snd (insertAll ReplaceBuild database das) = map savedMessage das.
Proof.
  revert database. induction das as [|da rest IH]; intros database;
    [reflexivity|].
  rewrite insertAll_cons. cbn [snd]. now rewrite IH.
Qed.

Lemma insertAll_ignore_present (database : table)
    (das : list developmentApplication) :
  (forall da, In da das -> applicationNumber da ∈ dom database) ->
  insertAll IgnoreBuild database das = (database, map skippedMessage das).
Proof.
  induction das as [|da rest IH]; intros Hall; [reflexivity|].
  rewrite insertAll_cons. cbn [insertRow]. unfold insertOrIgnore.
  destruct (database !! applicationNumber da) eqn:E.
  - cbn [fst snd]. rewrite IH by (intros; apply Hall; now right).
    reflexivity.
  - exfalso. apply not_elem_of_dom in E. apply E. apply Hall. now left.
Qed.

(** Storing a batch twice. *)
Lemma insertAll_again (b : build) (database : table)
    (das : list developmentApplication) :
  insertAll b (fst (insertAll b database das)) das
  = (fst (insertAll b database das),
     map (match b with
          | ReplaceBuild => savedMessage
          | IgnoreBuild => skippedMessage
          end) das).
Proof.
  destruct b.
  - rewrite (surjective_pairing (insertAll ReplaceBuild _ das)).
    rewrite insertAll_replace_console. f_equal.
    apply map_eq. intros k. rewrite !insertAll_replace_lookup.
    now destruct (lastWith k das).
  - apply insertAll_ignore_present. intros da Hin.
    rewrite insertAll_dom. apply elem_of_union_r, elem_of_list_to_set.
    apply list_elem_of_In, in_map, Hin.
Qed.

(** X6. A cycle of [main] keeps the table well formed: every row has the
    columns of the build, all of them text, with its own reference number
    in the first. *)
Theorem cycle_keeps_table_well_formed (b : build) (now : Moment.ymd)
    (doc : document) (database : table) :
  wellFormedTable b database ->
  wellFormedTable b
    (fst (insertAll b database (fst (parseResults b now doc)))).
Proof.
  intros Hwf k row Hrow.
  destruct (insertAll_lookup b (fst (parseResults b now doc)) database k)
    as [H|(da & Hin & Hk & H)].
  - apply Hwf. congruence.
  - rewrite H in Hrow. injection Hrow as <-.
    apply emitted_from_heading in Hin as (h & _ & -> & _).
    subst k. destruct b; repeat split; reflexivity.
Qed.

Lemma cycle_keeps_table_well_formed_witness :
  wellFormedTable IgnoreBuild
    (fst (insertAll IgnoreBuild ∅
            (fst (parseResults IgnoreBuild (Moment.mk 2019 3 15)
                    (fixturePage (js "3/04/2019")))))).
Proof.
  apply cycle_keeps_table_well_formed.
  intros k row Hrow. rewrite lookup_empty in Hrow. discriminate.
Defined.


(** X2. The build that inserts with insert-or-ignore never changes a row
    that is already stored, and of several applications with one reference
    number it stores the first. *)
Theorem ignore_build_first_wins (database : table)
    (das : list developmentApplication) (k : jsstring) :
  fst (insertAll IgnoreBuild database das) !! k
  = match database !! k with
    | Some row => Some row
    | None => rowValues7 <$> firstWith k das
    end.
Proof. apply insertAll_ignore_lookup. Qed.

(** X3. The build that inserts with insert-or-replace ends with, under each
    reference number of the batch, the row of the last application that
    carries it; the other rows are as they were. *)
Theorem replace_build_last_wins (database : table)
    (das : list developmentApplication) (k : jsstring) :
  fst (insertAll ReplaceBuild database das) !! k
  = match lastWith k das with
    | Some da => Some (rowValues6 da)
    | None => database !! k
    end.
Proof. apply insertAll_replace_lookup. Qed.

(** X4. After the storing loop the table holds exactly the reference
    numbers it held before and those of the batch: nothing is deleted. *)
Theorem store_never_deletes (b : build) (database : table)
    (das : list developmentApplication) :
  dom (fst (insertAll b database das))
  = dom database ∪ list_to_set (map applicationNumber das).
Proof. apply insertAll_dom. Qed.

(** X5. Running the storing loop a second time over the same batch leaves
    the table as the first run left it; the insert-or-ignore build reports
    every application as skipped. *)
Theorem storing_twice_changes_nothing (b : build) (database : table)
    (das : list developmentApplication) :
  insertAll b (fst (insertAll b database das)) das
  = (fst (insertAll b database das),
     map (match b with
          | ReplaceBuild => savedMessage
          | IgnoreBuild => skippedMessage
          end) das).
Proof. apply insertAll_again. Qed.

(** X19. In the insert-or-ignore build the line written tells what
    happened: an application whose reference number is not yet stored is
    stored, the table grows by one row and the line says Inserted; one whose
    reference number is stored leaves the table alone and the line says
    Skipped; the two lines differ. *)
Theorem ignore_build_reports (database : table)
    (da : developmentApplication) :
  (database !! applicationNumber da = None ->
   insertRow IgnoreBuild database da
   = (<[applicationNumber da := rowValues7 da]> database,
      [insertedMessage da])
   /\ size (fst (insertRow IgnoreBuild database da)) = S (size database))
  /\ (is_Some (database !! applicationNumber da) ->
      insertRow IgnoreBuild database da = (database, [skippedMessage da]))
  /\ insertedMessage da <> skippedMessage da.
Proof.
  split; [|split].
  - intros Hnew. cbn [insertRow]. unfold insertOrIgnore. rewrite Hnew.
    split; [reflexivity|]. cbn [fst]. now apply map_size_insert_None.
  - intros [row Hrow]. cbn [insertRow]. unfold insertOrIgnore.
    now rewrite Hrow.
  - unfold insertedMessage, skippedMessage. discriminate.
Qed.

Lemma ignore_build_reports_witness :
  let da :=
    makeApplication IgnoreBuild (Moment.mk 2019 3 15) (js "1 High St")
      (lastValues [(js "Application No.", js "7")]) in
  size (fst (insertRow IgnoreBuild ∅ da)) = 1%nat
  /\ insertRow IgnoreBuild (fst (insertRow IgnoreBuild ∅ da)) da
     = (fst (insertRow IgnoreBuild ∅ da), [skippedMessage da]).
Proof.
  cbn zeta. split.
  - change 1%nat with (S (size (∅ : table))).
    apply (proj1 (ignore_build_reports ∅ _)). apply lookup_empty.
  - apply (proj1 (proj2 (ignore_build_reports _ _))).
    eexists. apply lookup_insert_eq.
Defined.

(** ** Normalising an address *)

Section Normalising.

Lemma trimStart_nil (s : jsstring) :
  trimStart s = [] <-> allWhitespace s = true.
Proof.
  induction s as [|c t IH]; simpl; [tauto|].
  destruct (is_whitespace c); simpl; [exact IH|]. split; discriminate.
Qed.

Lemma trim_nil (s : jsstring) : trim s = [] <-> allWhitespace s = true.
Proof.
  rewrite <- trimStart_nil. unfold trim. split.
  - intros H. pose proof (trimStart_starts s) as Hs.
    destruct (trimStart s) as [|c t]; [reflexivity|].
    simpl in Hs. rewrite trimEnd_cons in H by exact Hs. discriminate.
  - now intros ->.
Qed.

Lemma replaceRuns_nil (s : jsstring) : replaceRuns false s = [] <-> s = [].
Proof.
  destruct s as [|c t]; simpl; [tauto|]. split; [|discriminate].
  destruct (is_whitespace c); [|discriminate].
  destruct (startsWithWhitespace t); discriminate.
Qed.

Lemma replaceRuns_id (s : jsstring) :
  adjacentWhitespace s = false -> replaceRuns false s = s.
Proof.
  induction s as [|c t IH]; simpl; [reflexivity|].
  intros [Hc Ht]%orb_false_elim.
  destruct (is_whitespace c); simpl in Hc.
  - rewrite Hc. now rewrite IH.
  - now rewrite IH.
Qed.

Lemma filter_trimStart (s : jsstring) :
  List.filter isInk (trimStart s) = List.filter isInk s.
Proof.
  induction s as [|c t IH]; simpl; [reflexivity|].
  unfold isInk at 2. destruct (is_whitespace c) eqn:E; simpl; [exact IH|].
  unfold isInk at 1. now rewrite E.
Qed.

Lemma filter_trim (s : jsstring) :
  List.filter isInk (trim s) = List.filter isInk s.
Proof.
  unfold trim, trimEnd.
  now rewrite filter_rev, filter_trimStart, <- filter_rev, rev_involutive,
    filter_trimStart.
Qed.

Lemma filter_replaceRuns (inRun : bool) (s : jsstring) :
  List.filter isInk (replaceRuns inRun s) = List.filter isInk s.
Proof.
  revert inRun. induction s as [|c t IH]; intros inRun; simpl;
    [reflexivity|].
  unfold isInk at 2. destruct (is_whitespace c) eqn:E; simpl.
  - destruct inRun; [apply IH|].
    destruct (startsWithWhitespace t); simpl.
    + apply IH.
    + unfold isInk at 1. rewrite E. simpl. apply IH.
  - unfold isInk at 1. rewrite E. simpl. now rewrite IH.
Qed.

Lemma length_trimStart (s : jsstring) :
  (length (trimStart s) <= length s)%nat.
Proof.
  induction s as [|c t IH]; simpl; [lia|].
  destruct (is_whitespace c); simpl; lia.
Qed.

Lemma length_replaceRuns (inRun : bool) (s : jsstring) :
  (length (replaceRuns inRun s) <= length s)%nat.
Proof.
  revert inRun. induction s as [|c t IH]; intros inRun; simpl; [lia|].
  destruct (is_whitespace c); [destruct inRun|];
    [|destruct (startsWithWhitespace t)|]; simpl;
    try (specialize (IH true); lia); specialize (IH false); lia.
Qed.

End Normalising.

(** X7. Normalising an address twice is normalising it once. *)
Theorem normalizeAddress_idempotent (text : jsstring) :
  normalizeAddress (normalizeAddress text) = normalizeAddress text.
Proof.
  assert (Hs : startsWithWhitespace (normalizeAddress text) = false).
  { unfold normalizeAddress. rewrite replaceRuns_false_starts.
    apply trim_clean. }
  assert (He : endsWithWhitespace (normalizeAddress text) = false).
  { unfold normalizeAddress. apply replaceRuns_ends, trim_clean. }
  assert (Ha : adjacentWhitespace (normalizeAddress text) = false).
  { unfold normalizeAddress. apply replaceRuns_no_adjacent. }
  unfold normalizeAddress at 1. unfold trim.
  rewrite trimStart_id by exact Hs. rewrite trimEnd_id by exact He.
  now apply replaceRuns_id.
Qed.

(** X8. The normalised address is empty exactly when the text of the
    heading is empty or all whitespace; it keeps every character that is not
    whitespace, in order, and is never longer than the text. *)
Theorem normalizeAddress_content (text : jsstring) :
  (normalizeAddress text = [] <-> allWhitespace text = true)
  /\ List.filter isInk (normalizeAddress text) = List.filter isInk text
  /\ (length (normalizeAddress text) <= length text)%nat.
Proof.
  unfold normalizeAddress. split; [|split].
  - rewrite replaceRuns_nil. apply trim_nil.
  - now rewrite filter_replaceRuns, filter_trim.
  - etransitivity; [apply length_replaceRuns|].
    unfold trim, trimEnd. rewrite length_rev.
    etransitivity; [apply length_trimStart|]. rewrite length_rev.
    apply length_trimStart.
Qed.

(** ** Rows and headings *)

Section Rows.

Lemma lastValue_filter (key : jsstring) (P : jsstring * jsstring -> bool)
    (rows : list (jsstring * jsstring)) :
  (forall v, P (key, v) = true) ->
  lastValue key (List.filter P rows) = lastValue key rows.
Proof.
  intros HP. induction rows as [|[k v] rest IH]; [reflexivity|].
  cbn [List.filter lastValue]. destruct (P (k, v)) eqn:E.
  - cbn [lastValue]. now rewrite IH.
  - rewrite IH. destruct (lastValue key rest); [reflexivity|].
    case_decide; [|reflexivity]. subst k. rewrite HP in E. discriminate.
Qed.

Lemma foundLines_filter (P : jsstring * jsstring -> bool)
    (rows : list (jsstring * jsstring)) :
  (forall v, P (keyApplicationNo, v) = true) ->
  foundLines (List.filter P rows) = foundLines rows.
Proof.
  intros HP. induction rows as [|[k v] rest IH]; [reflexivity|].
  cbn [List.filter]. destruct (P (k, v)) eqn:E.
  - change (foundLines ((k, v) :: List.filter P rest))
      with ((if decide (k = keyApplicationNo) then [foundMessage v] else [])
            ++ foundLines (List.filter P rest)).
    now rewrite IH.
  - rewrite IH.
    change (foundLines ((k, v) :: rest))
      with ((if decide (k = keyApplicationNo) then [foundMessage v] else [])
            ++ foundLines rest).
    case_decide; [|reflexivity]. subst k. rewrite HP in E. discriminate.
Qed.

End Rows.

(** X9. Rows with any other label than the three the scraper looks for do
    not count: scanning the rows gives the variables and the console lines
    it gives with those rows left out. *)
Theorem unrecognised_rows_ignored (rows : list (jsstring * jsstring)) :
  scanRows rows = scanRows (List.filter recognised rows).
Proof.
  rewrite !scanRows_spec. unfold lastValues.
  rewrite !lastValue_filter, foundLines_filter; try reflexivity;
    intros v; unfold recognised; cbn [fst];
    rewrite ?bool_decide_eq_true_2 by reflexivity;
    now rewrite ?orb_true_r.
Qed.

Section Headings.

Variables (b : build) (now : Moment.ymd).

Lemma headerResult_no_rows (h : cursor) :
  rowsOf h = [] -> headerResult b now h = ([], []).
Proof.
  intros Hr. rewrite headerResult_cases. cbn zeta.
  now rewrite scanRows_spec, Hr.
Qed.

Lemma rowsOf_trimmed (h : cursor) (k v : jsstring) :
  In (k, v) (rowsOf h) -> exists s, v = trim s.
Proof.
  unfold rowsOf. rewrite in_flat_map. intros (divElement & _ & Hin).
  apply in_map_iff in Hin as (p & [= _ <-] & _). unfold rowValue. eauto.
Qed.

Lemma lastValue_In (key v : jsstring) (rows : list (jsstring * jsstring)) :
  lastValue key rows = Some v -> In (key, v) rows.
Proof.
  induction rows as [|[k v'] rest IH]; [discriminate|].
  cbn [lastValue]. destruct (lastValue key rest) eqn:E.
  - intros [= ->]. right. now apply IH.
  - case_decide; [|discriminate]. intros [= ->]. subst. now left.
Qed.

Lemma lastValue_trimmed (h : cursor) (key : jsstring) :
  startsWithWhitespace (default [] (lastValue key (rowsOf h))) = false
  /\ endsWithWhitespace (default [] (lastValue key (rowsOf h))) = false.
Proof.
  destruct (lastValue key (rowsOf h)) as [v|] eqn:E; [|now split].
  apply lastValue_In, rowsOf_trimmed in E as (s & ->). apply trim_clean.
Qed.

End Headings.

(** The received date rendered from a moment is empty or a calendar date in
    the form YYYY-MM-DD. *)
Lemma receivedDateText_shape (value : jsstring) :
  receivedDateText (Moment.parse_D_MM_YYYY_strict value) = []
  \/ isoDate (receivedDateText (Moment.parse_D_MM_YYYY_strict value)).
Proof.
  destruct (Moment.parse_D_MM_YYYY_strict value) as [v|] eqn:E;
    [right|now left].
  destruct (ParseFacts.parse_Some_inv value v E)
    as (day & month & year & Hp & Hc).
  rewrite (ParseFacts.parse_pattern value day month year Hp) in E.
  rewrite ParseFacts.fromArray_calendar in E
    by apply ParseFacts.toInt_nonneg.
  rewrite Hc in E. injection E as <-.
  destruct Hp as (_ & Hd & Hld & Hm & Hlm & Hy & Hly).
  unfold receivedDateText. cbn [Moment.isValid Moment.format_YYYY_MM_DD].
  cbn [Moment.year Moment.month Moment.date]. rewrite Z.sub_add.
  rewrite (MomentFacts.zeroFill_digits year 4), Hly;
    [|destruct year; [discriminate|congruence]|exact Hy|lia].
  rewrite (MomentFacts.zeroFill_digits month 2), Hlm;
    [|destruct month; [discriminate|congruence]|exact Hm|lia].
  rewrite (MomentFacts.zeroFill_digits day 2);
    [|destruct day; [simpl in Hld; lia|congruence]|exact Hd|lia].
  exists year, month, (repeat 48 (2 - length day) ++ day).
  cbn [repeat Nat.sub app]. split; [reflexivity|].
  repeat (split; [assumption|]).
  destruct Hld as [Hld|Hld].
  - destruct day as [|d1 [|]]; try discriminate.
    cbn [forallb] in Hd. rewrite andb_true_r in Hd.
    cbn [length Nat.sub repeat app forallb]. rewrite Hd.
    repeat split; exact Hc.
  - rewrite Hld. cbn [Nat.sub repeat app]. repeat split; assumption.
Qed.

(** X10. A heading whose nearest following element is not a div, or that
    has no following element, yields no record and writes nothing, whatever
    comes later among its siblings. *)
Theorem heading_without_block (b : build) (now : Moment.ymd) (h : cursor) :
  (forall e, nextElement (following h) = Some e -> matches div_any e = false) ->
  headerResult b now h = ([], []).
Proof.
  intros Hnext. apply headerResult_no_rows. unfold rowsOf, next.
  destruct (nextElement (following h)) as [e|] eqn:E; [|reflexivity].
  now rewrite (Hnext e eq_refl).
Qed.

Lemma heading_without_block_witness :
  headerResult ReplaceBuild (Moment.mk 2019 3 15)
    (Cursor (headingElement (js "1 High St"))
       [Text [10]; Element (js "p") [] [Text (js "Note")];
        blockElement (fixtureRows (js "3/04/2019"))])
  = ([], []).
Proof.
  apply heading_without_block. intros e [= <-]. reflexivity.
Defined.

(** X11. Every record returned has a reference number and a description
    without whitespace at either end, a received date that is empty or a
    calendar date in the form YYYY-MM-DD, the portal address as information
    address, the scrape date of the run and, in the build that has one, the
    fixed comment address. *)
Theorem emitted_record_fields (b : build) (now : Moment.ymd) (doc : document)
    (da : developmentApplication) :
  In da (fst (parseResults b now doc)) ->
  startsWithWhitespace (applicationNumber da) = false
  /\ endsWithWhitespace (applicationNumber da) = false
  /\ startsWithWhitespace (description da) = false
  /\ endsWithWhitespace (description da) = false
  /\ (receivedDate da = [] \/ isoDate (receivedDate da))
  /\ informationUrl da = DevelopmentApplicationMainUrl
  /\ scrapeDate da = Moment.format_YYYY_MM_DD (Some now)
  /\ commentUrl da
     = match b with ReplaceBuild => None | IgnoreBuild => Some CommentUrl end.
Proof.
  intros (h & _ & -> & _)%emitted_from_heading.
  rewrite scanRows_spec. unfold makeApplication, lastValues.
  cbn [fst applicationNumber description receivedDate informationUrl
       scrapeDate commentUrl l_applicationNumber l_description
       l_receivedDate].
  destruct (lastValue_trimmed h keyApplicationNo) as [Ha1 Ha2].
  destruct (lastValue_trimmed h keyTypeOfWork) as [Hd1 Hd2].
  repeat (split; [assumption|]).
  split; [|split; [|split]].
  - destruct (isEmpty (default [] (lastValue keyTypeOfWork (rowsOf h))));
      [reflexivity|exact Hd1].
  - destruct (isEmpty (default [] (lastValue keyTypeOfWork (rowsOf h))));
      [reflexivity|exact Hd2].
  - destruct (lastValue keyDateLodged (rowsOf h)) as [v|];
      [apply receivedDateText_shape|now left].
  - repeat split.
Qed.

Lemma emitted_record_fields_witness :
  Forall (fun da => receivedDate da = [] \/ isoDate (receivedDate da))
    (fst (parseResults ReplaceBuild (Moment.mk 2019 3 15)
            (fixturePage (js "3/04/2019")))).
Proof.
  apply Forall_forall. intros da Hin.
  apply (emitted_record_fields ReplaceBuild (Moment.mk 2019 3 15)
           (fixturePage (js "3/04/2019")) da Hin).
Defined.

(** X12. Headings are found at any depth: a page wrapped whole in one more
    element, itself not such a heading, yields what the page yields. *)
Theorem wrapping_does_not_matter (b : build) (now : Moment.ymd)
    (name : jsstring) (classes : list jsstring) (doc : document) :
  matches h4_non_table_headers (Element name classes doc) = false ->
  parseResults b now [Element name classes doc] = parseResults b now doc.
Proof.
  intros Hw. unfold parseResults. f_equal. unfold select.
  cbn [descendants]. rewrite app_nil_r.
  cbn [List.filter here]. now rewrite Hw.
Qed.

Lemma wrapping_does_not_matter_witness :
  parseResults ReplaceBuild (Moment.mk 2019 3 15)
    [Element (js "div") [js "content"] (fixturePage (js "3/04/2019"))]
  = parseResults ReplaceBuild (Moment.mk 2019 3 15)
      (fixturePage (js "3/04/2019")).
Proof. apply wrapping_does_not_matter. reflexivity. Defined.

Lemma headerResult_length (b : build) (now : Moment.ymd) (h : cursor) :
  (length (fst (headerResult b now h)) <= 1)%nat.
Proof.
  rewrite headerResult_cases. cbn zeta.
  destruct (isEmpty (l_applicationNumber (fst (scanRows (rowsOf h)))));
    [simpl; lia|].
  destruct (isEmpty (normalizeAddress (text [here h]))); simpl; lia.
Qed.

(** X20. A page yields at most one record for each of its headings; a page
    without such a heading yields no record and writes nothing. *)
Theorem records_at_most_headings (b : build) (now : Moment.ymd)
    (doc : document) :
  (length (fst (parseResults b now doc))
   <= length (select h4_non_table_headers doc))%nat
  /\ (select h4_non_table_headers doc = [] ->
      parseResults b now doc = ([], [])).
Proof.
  split.
  - rewrite parseResults_headers. cbn [fst].
    induction (select h4_non_table_headers doc) as [|h rest IH];
      [simpl; lia|].
    cbn [flat_map]. rewrite length_app. cbn [length].
    pose proof (headerResult_length b now h). lia.
  - intros Hs. unfold parseResults. now rewrite Hs.
Qed.

Lemma records_at_most_headings_witness :
  parseResults ReplaceBuild (Moment.mk 2019 3 15)
    [Element (js "html") [] [Element (js "body") [] [Text (js "No results")]]]
  = ([], []).
Proof. apply records_at_most_headings. reflexivity. Defined.

(** ** The search address *)

Section SearchAddress.

Import Moment.

Lemma decimalFuel_digits (f : nat) (n : N) :
  (n < 2 ^ N.of_nat f)%N -> forallb isDigit (decimalFuel f n) = true.
Proof.
  revert n. induction f as [|g IH]; intros n Hn.
  - change (2 ^ N.of_nat 0)%N with 1%N in Hn.
    assert (n = 0%N) by lia. now subst n.
  - cbn [decimalFuel]. destruct (N.ltb_spec n 10) as [Hs|Hs].
    + cbn [forallb]. rewrite andb_true_r. apply MomentFacts.isDigit_range.
      lia.
    + rewrite forallb_app. apply andb_true_intro. split.
      * apply IH. rewrite Nat2N.inj_succ, N.pow_succ_r' in Hn.
        apply N.Div0.div_lt_upper_bound. lia.
      * cbn [forallb]. rewrite andb_true_r. apply MomentFacts.isDigit_range.
        assert (n mod 10 < 10)%N by (apply N.mod_upper_bound; discriminate).
        remember (n mod 10)%N as digit. lia.
Qed.

Lemma decimal_digits (n : N) : forallb isDigit (decimal n) = true.
Proof.
  unfold decimal. apply decimalFuel_digits. rewrite N2Nat.id.
  apply N.size_gt.
Qed.

Lemma zeroFill_chars (number : Z) (w : nat) :
  forallb isNumberChar (zeroFill number w) = true.
Proof.
  unfold zeroFill. rewrite !forallb_app.
  apply andb_true_intro. split; [|apply andb_true_intro; split].
  - now destruct (number <? 0)%Z.
  - apply forallb_forall. intros x Hx. apply repeat_spec in Hx. now subst.
  - pose proof (decimal_digits (Z.abs_N number)) as H.
    rewrite forallb_forall in *. intros x Hx. unfold isNumberChar.
    now rewrite (H x Hx).
Qed.

Lemma isNumberChar_unescaped (c : N) :
  isNumberChar c = true -> uriUnescaped c = true /\ (123 =? c)%N = false.
Proof.
  unfold isNumberChar, isDigit, uriUnescaped.
  intros H. apply orb_prop in H as [H|H].
  - apply andb_prop in H as [H1 H2]. rewrite H1, H2.
    apply N.leb_le in H1, H2. split; [|apply N.eqb_neq; lia].
    now rewrite !orb_true_r.
  - apply N.eqb_eq in H. now subst.
Qed.

Lemma encode_unescaped (a s : jsstring) :
  forallb isNumberChar a = true ->
  encodeURIComponent (a ++ s) = app a <$> encodeURIComponent s.
Proof.
  induction a as [|c t IH]; intros H.
  - cbn [app]. now destruct (encodeURIComponent s).
  - cbn [forallb] in H. apply andb_prop in H as [Hc Ht].
    change ((c :: t) ++ s) with (c :: (t ++ s)). cbn [encodeURIComponent].
    rewrite (proj1 (isNumberChar_unescaped c Hc)), IH by exact Ht.
    now destruct (encodeURIComponent s).
Qed.

Lemma encode_slash (s : jsstring) :
  encodeURIComponent (js "/" ++ s) = app (js "%2F") <$> encodeURIComponent s.
Proof. reflexivity. Qed.

(** A formatted date is encoded without error, only its slashes change. *)
Lemma encode_date (v : ymd) :
  encodeURIComponent (format_DD_MM_YYYY (Some v)) = Some (encodedDate v).
Proof.
  unfold format_DD_MM_YYYY, encodedDate.
  rewrite encode_unescaped by apply zeroFill_chars.
  rewrite encode_slash.
  rewrite encode_unescaped by apply zeroFill_chars.
  rewrite encode_slash.
  rewrite <- (app_nil_r (zeroFill (year v) 4)) at 1.
  rewrite encode_unescaped by apply zeroFill_chars.
  cbn [encodeURIComponent fmap option_fmap option_map].
  now rewrite app_nil_r.
Qed.

Lemma encodedDate_chars (v : ymd) :
  forallb (fun c => negb (123 =? c)%N) (encodedDate v) = true.
Proof.
  assert (H : forall n w,
            forallb (fun c => negb (123 =? c)%N) (zeroFill n w) = true).
  { intros n w. pose proof (zeroFill_chars n w) as H.
    rewrite forallb_forall in *. intros x Hx.
    now rewrite (proj2 (isNumberChar_unescaped x (H x Hx))). }
  unfold encodedDate. rewrite !forallb_app, !H. reflexivity.
Qed.

(** Text without an opening brace is copied by the replacing scan. *)
Lemma replaceAll_copy (rest replacement a s : jsstring) :
  forallb (fun c => negb (123 =? c)%N) a = true ->
  replaceAll (123%N :: rest) replacement 0 (a ++ s)
  = a ++ replaceAll (123%N :: rest) replacement 0 s.
Proof.
  induction a as [|c t IH]; intros H; [reflexivity|].
  cbn [forallb] in H. apply andb_prop in H as [Hc Ht].
  change ((c :: t) ++ s) with (c :: (t ++ s)).
  cbn [replaceAll startsWith].
  apply negb_true_iff in Hc. rewrite Hc. cbn [andb].
  now rewrite IH.
Qed.

Lemma searchUrl_some (dateFrom dateTo : ymd) :
  searchUrl (Some dateFrom) (Some dateTo)
  = Some (searchAddress dateFrom dateTo).
Proof.
  unfold searchUrl. rewrite !encode_date. cbn [mbind option_bind].
  f_equal. unfold searchAddress.
  assert (H0 : forall r,
    replaceAll (js "{0}") r 0 DevelopmentApplicationSearchUrl
    = urlBefore ++ r ++ urlBetween ++ js "{1}" ++ urlAfter).
  { intros r. vm_compute. reflexivity. }
  rewrite H0.
  change (js "{1}") with (123%N :: js "1}") at 1.
  rewrite replaceAll_copy by reflexivity.
  rewrite replaceAll_copy by apply encodedDate_chars.
  reflexivity.
Qed.

End SearchAddress.

(** X13. The address requested for a date range is the template with the
    place for the first date taken by the start and the place for the
    second by the end, each as DD%2FMM%2FYYYY; building it never fails. *)
Theorem searchUrl_dates (dateFrom dateTo : Moment.ymd) :
  searchUrl (Some dateFrom) (Some dateTo)
  = Some (urlBefore ++ encodedDate dateFrom ++ urlBetween
          ++ encodedDate dateTo ++ urlAfter)
  /\ DevelopmentApplicationSearchUrl
     = urlBefore ++ js "{0}" ++ urlBetween ++ js "{1}" ++ urlAfter
  /\ encodedDate dateFrom
     = Moment.zeroFill (Moment.date dateFrom) 2 ++ js "%2F"
       ++ Moment.zeroFill (Moment.month dateFrom + 1) 2 ++ js "%2F"
       ++ Moment.zeroFill (Moment.year dateFrom) 4.
Proof.
  split; [apply searchUrl_some|]. split; reflexivity.
Qed.

(** ** The date ranges *)

Section Months.

Import Moment.

Local Open Scope Z_scope.

Lemma daysInMonth_carry (y m : Z) :
  daysInMonth y m = daysInMonth (y + m / 12) (m mod 12).
Proof.
  unfold daysInMonth. rewrite Z.mod_mod by lia.
  assert (H : m - m mod 12 = m / 12 * 12)
    by (pose proof (Z.div_mod m 12); lia).
  rewrite H, Z.div_mul by lia.
  replace (m mod 12 - m mod 12) with 0 by lia.
  change (0 / 12) with 0. now rewrite Z.add_0_r.
Qed.

Lemma daysInMonth_bounds (y m : Z) : 28 <= daysInMonth y m <= 31.
Proof.
  unfold daysInMonth.
  destruct (m mod 12 =? 1); [destruct (isLeapYear _); lia|].
  pose proof (Z.mod_pos_bound m 12 eq_refl) as Hm.
  pose proof (Z.rem_bound_pos (m mod 12) 7) as H7.
  pose proof (Z.rem_bound_pos (Z.rem (m mod 12) 7) 2) as H2.
  lia.
Qed.

Lemma subtractMonths_index (n : Z) (v : ymd) :
  monthIndex (subtractMonths n v) = monthIndex v - n.
Proof.
  unfold monthIndex, subtractMonths. cbn [year month].
  pose proof (Z.div_mod (month v - n) 12). lia.
Qed.

Lemma subtractMonths_calendar (n : Z) (v : ymd) :
  1 <= date v ->
  isCalendarMoment (subtractMonths n v)
  /\ date (subtractMonths n v) <= date v.
Proof.
  intros Hd. unfold isCalendarMoment, subtractMonths. cbn [year month date].
  rewrite <- daysInMonth_carry.
  pose proof (daysInMonth_bounds (year v) (month v - n)).
  pose proof (Z.mod_pos_bound (month v - n) 12 eq_refl). lia.
Qed.

End Months.

(** X14. The two date ranges of a run.  The first runs from the day one
    month back to today.  The second ends [randomMonth] months back and
    starts one month before that; its end falls in a month from February
    2012 to last month.  Every end of a range is a date of the calendar,
    with a day of the month no later than today's. *)
Theorem search_windows (now : Moment.ymd) (r : Q) :
  isCalendarMoment now -> (0 <= r)%Q -> (r < 1)%Q ->
  (1 <= monthCount now)%Z ->
  let n := randomMonth r now in
  let dateTo := Moment.subtractMonths n now in
  let dateFrom := Moment.subtractMonths (n + 1) now in
  (monthIndex (Moment.subtractMonths 1 now) = monthIndex now - 1
   /\ 2012 * 12 + 1 <= monthIndex dateTo <= monthIndex now - 1
   /\ monthIndex dateFrom = monthIndex dateTo - 1)%Z
  /\ isCalendarMoment (Moment.subtractMonths 1 now)
  /\ isCalendarMoment dateTo /\ isCalendarMoment dateFrom
  /\ (Moment.date (Moment.subtractMonths 1 now) <= Moment.date now
      /\ Moment.date dateTo <= Moment.date now
      /\ Moment.date dateFrom <= Moment.date now)%Z.
Proof.
  intros Hnow Hl Hu Hm. cbn zeta.
  pose proof (randomMonth_range r now Hl Hu Hm) as Hn.
  assert (Hd : (1 <= Moment.date now)%Z) by (destruct Hnow; lia).
  rewrite !subtractMonths_index.
  destruct (subtractMonths_calendar 1 now Hd) as [Hc1 Hd1].
  destruct (subtractMonths_calendar (randomMonth r now) now Hd) as [Hc2 Hd2].
  destruct (subtractMonths_calendar (randomMonth r now + 1) now Hd)
    as [Hc3 Hd3].
  split; [unfold monthCount, monthIndex in *; lia|].
  repeat (split; [assumption|]). auto.
Qed.

Lemma search_windows_witness :
  (2012 * 12 + 1
   <= monthIndex
        (Moment.subtractMonths (randomMonth (7 # 10) (Moment.mk 2019 2 31))
           (Moment.mk 2019 2 31))
   <= monthIndex (Moment.mk 2019 2 31) - 1)%Z.
Proof.
  apply (search_windows (Moment.mk 2019 2 31) (7 # 10)).
  - unfold isCalendarMoment.
    cbn [Moment.year Moment.month Moment.date].
    change (Moment.daysInMonth 2019 2) with 31%Z. lia.
  - discriminate.
  - reflexivity.
  - discriminate.
Defined.

(** ** The run *)

Section Run.

Variables (b : build) (w : world).

(** What a call of [getResults] does to the run, by the answers it gets. *)
Lemma getResults_spec (dateFrom dateTo : Moment.ymd) (st : run) :
  let k := length (requests st) in
  let address := searchAddress dateFrom dateTo in
  let st' := fst (getResults b w dateFrom dateTo st) in
  let out := snd (getResults b w dateFrom dateTo st) in
  database st' = database st
  /\ ((exists e,
        respond w k DevelopmentApplicationMainUrl = Rejected e
        /\ out = Rejected e
        /\ requests st' = requests st ++ [DevelopmentApplicationMainUrl]
        /\ drawn st' = drawn st /\ delays st' = delays st)
      \/ (exists page e,
        respond w k DevelopmentApplicationMainUrl = Resolved page
        /\ respond w (S k) address = Rejected e
        /\ out = Rejected e
        /\ requests st'
           = requests st ++ [DevelopmentApplicationMainUrl; address]
        /\ drawn st' = S (drawn st)
        /\ delays st' = delays st ++ [pacingDelay (randoms w (drawn st))])
      \/ (exists page doc,
        respond w k DevelopmentApplicationMainUrl = Resolved page
        /\ respond w (S k) address = Resolved doc
        /\ out = Resolved (fst (parseResults b (today w) doc))
        /\ requests st'
           = requests st ++ [DevelopmentApplicationMainUrl; address]
        /\ drawn st' = S (drawn st)
        /\ delays st' = delays st ++ [pacingDelay (randoms w (drawn st))])).
Proof.
  cbn zeta. unfold getResults, request, random, sleep, log.
  cbn [requests drawn delays console database].
  rewrite searchUrl_some.
  destruct (respond w (length (requests st)) DevelopmentApplicationMainUrl)
    as [page|e] eqn:E1.
  - cbn [requests drawn delays console database].
    rewrite length_app. cbn [length]. rewrite Nat.add_1_r.
    destruct (respond w (S (length (requests st)))
                (searchAddress dateFrom dateTo)) as [doc|e] eqn:E2.
    + destruct (parseResults b (today w) doc) as [das lines] eqn:Ep.
      cbn [fst snd logAll requests drawn delays console database].
      split; [reflexivity|]. right. right. exists page, doc.
      rewrite <- app_assoc, Ep. repeat split; reflexivity.
    + cbn [fst snd requests drawn delays console database].
      split; [reflexivity|]. right. left. exists page, e.
      rewrite <- app_assoc. repeat split; reflexivity.
  - cbn [fst snd requests drawn delays console database].
    split; [reflexivity|]. left. exists e. repeat split; reflexivity.
Qed.

Lemma store_spec (das : list developmentApplication) (st : run) :
  database (store b das st) = fst (insertAll b (database st) das)
  /\ requests (store b das st) = requests st
  /\ drawn (store b das st) = drawn st
  /\ delays (store b das st) = delays st.
Proof.
  unfold store, log. cbn [database].
  destruct (insertAll b (database st) das) as [database' lines].
  repeat split; reflexivity.
Qed.

(** The five ways a run can go: the request that is rejected, if any, and
    what has been asked for, paused and stored by then. *)
Lemma main_spec (file : option table) :
  let st := fst (main b w file) in
  let out := snd (main b w file) in
  let init := initializeDatabase file in
  let d0 := pacingDelay (randoms w 0) in
  let d2 := pacingDelay (randoms w 2) in
  (exists e,
     respond w 0 DevelopmentApplicationMainUrl = Rejected e
     /\ out = Rejected e /\ requests st = firstn 1 (plannedRequests w)
     /\ delays st = [] /\ database st = init)
  \/ (exists page0 e,
     respond w 0 DevelopmentApplicationMainUrl = Resolved page0
     /\ respond w 1 (firstAddress w) = Rejected e
     /\ out = Rejected e /\ requests st = firstn 2 (plannedRequests w)
     /\ delays st = [d0] /\ database st = init)
  \/ (exists page0 doc1 e,
     respond w 0 DevelopmentApplicationMainUrl = Resolved page0
     /\ respond w 1 (firstAddress w) = Resolved doc1
     /\ respond w 2 DevelopmentApplicationMainUrl = Rejected e
     /\ out = Rejected e /\ requests st = firstn 3 (plannedRequests w)
     /\ delays st = [d0]
     /\ database st = fst (insertAll b init (recordsOf b w doc1)))
  \/ (exists page0 doc1 page2 e,
     respond w 0 DevelopmentApplicationMainUrl = Resolved page0
     /\ respond w 1 (firstAddress w) = Resolved doc1
     /\ respond w 2 DevelopmentApplicationMainUrl = Resolved page2
     /\ respond w 3 (secondAddress w) = Rejected e
     /\ out = Rejected e /\ requests st = plannedRequests w
     /\ delays st = [d0; d2]
     /\ database st = fst (insertAll b init (recordsOf b w doc1)))
  \/ (exists page0 doc1 page2 doc2,
     respond w 0 DevelopmentApplicationMainUrl = Resolved page0
     /\ respond w 1 (firstAddress w) = Resolved doc1
     /\ respond w 2 DevelopmentApplicationMainUrl = Resolved page2
     /\ respond w 3 (secondAddress w) = Resolved doc2
     /\ out = Resolved tt /\ requests st = plannedRequests w
     /\ delays st = [d0; d2]
     /\ database st
        = fst (insertAll b init
                 (recordsOf b w doc1 ++ recordsOf b w doc2))).
Proof.
  cbn zeta. unfold main.
  set (st0 := {| requests := []; drawn := 0%nat; delays := []; console := [];
                 database := initializeDatabase file |}).
  pose proof (getResults_spec (Moment.subtractMonths 1 (today w)) (today w)
                st0) as H1.
  cbn zeta in H1.
  destruct (getResults b w (Moment.subtractMonths 1 (today w)) (today w) st0)
    as [st1 res1].
  cbn [fst snd] in H1. fold (firstAddress w) in H1.
  change (length (requests st0)) with 0%nat in H1.
  change (requests st0) with (@nil jsstring) in H1.
  change (delays st0) with (@nil Z) in H1.
  change (drawn st0) with 0%nat in H1.
  change (database st0) with (initializeDatabase file) in H1.
  destruct H1 as (Hdb1 & [(e & Hr & -> & Hq & Hn & Hd)
                         |[(page & e & Hr0 & Hr & -> & Hq & Hn & Hd)
                          |(page & doc1 & Hr0 & Hr & -> & Hq & Hn & Hd)]]).
  - left. exists e. cbn [fst snd]. auto.
  - right. left. exists page, e. cbn [fst snd]. auto 10.
  - right. right.
    destruct (store_spec (fst (parseResults b (today w) doc1)) st1)
      as (Sdb & Sq & Sn & Sd).
    set (st2 := store b (fst (parseResults b (today w) doc1)) st1) in *.
    unfold random. cbn [fst snd].
    set (st3 := {| requests := requests st2; drawn := S (drawn st2);
                   delays := delays st2; console := console st2;
                   database := database st2 |}).
    rewrite Sn, Hn.
    set (n := randomMonth (randoms w 1) (today w)).
    pose proof (getResults_spec (Moment.subtractMonths (n + 1) (today w))
                  (Moment.subtractMonths n (today w)) st3) as H2.
    cbn zeta in H2.
    destruct (getResults b w (Moment.subtractMonths (n + 1) (today w))
                (Moment.subtractMonths n (today w)) st3) as [st4 res2].
    cbn [fst snd] in H2. fold n (secondAddress w) in H2.
    change (requests st3) with (requests st2) in H2.
    change (delays st3) with (delays st2) in H2.
    change (drawn st3) with (S (drawn st2)) in H2.
    change (database st3) with (database st2) in H2.
    rewrite Sq, Sd, Sn, Sdb, Hq, Hd, Hn, Hdb1 in H2. cbn [length app] in H2.
    fold (recordsOf b w doc1) in H2.
    destruct H2 as (Hdb2 & [(e & Hr2 & -> & Hq2 & Hn2 & Hd2)
                           |[(page2 & e & Hr20 & Hr2 & -> & Hq2 & Hn2 & Hd2)
                            |(page2 & doc2 & Hr20 & Hr2 & -> & Hq2 & Hn2
                              & Hd2)]]).
    + left. exists page, doc1, e. cbn [fst snd]. auto 10.
    + right. left. exists page, doc1, page2, e. cbn [fst snd]. auto 12.
    + right. right. exists page, doc1, page2, doc2. cbn [fst snd].
      destruct (store_spec (fst (parseResults b (today w) doc2)) st4)
        as (Tdb & Tq & Tn & Td).
      unfold log. cbn [requests delays database].
      rewrite Tq, Td, Tdb, Hdb2. fold (recordsOf b w doc2).
      rewrite insertAll_app. cbn [fst]. auto 12.
Qed.

(** The table a run leaves. *)
Lemma main_database (file : option table) :
  database (fst (main b w file))
  = fst (insertAll b (initializeDatabase file) (storedBatch b w)).
Proof.
  unfold storedBatch.
  destruct (main_spec file)
    as [(e & H0 & _ & _ & _ & Hdb)
       |[(p0 & e & H0 & H1 & _ & _ & _ & Hdb)
        |[(p0 & d1 & e & H0 & H1 & H2 & _ & _ & _ & Hdb)
         |[(p0 & d1 & p2 & e & H0 & H1 & H2 & H3 & _ & _ & _ & Hdb)
          |(p0 & d1 & p2 & d2 & H0 & H1 & H2 & H3 & _ & _ & _ & Hdb)]]]];
    rewrite Hdb, H0, ?H1, ?H2, ?H3; reflexivity.
Qed.


End Run.



(** X17. A run never loses a row: every reference number stored before is
    stored after, and in the insert-or-ignore build with the same row,
    whatever the server answers. *)
Theorem run_keeps_rows (b : build) (w : world) (before : table)
    (k : jsstring) (row : list sqlValue) :
  before !! k = Some row ->
  is_Some (database (fst (main b w (Some before))) !! k)
  /\ (b = IgnoreBuild ->
      database (fst (main b w (Some before))) !! k = Some row).
Proof.
  intros Hrow. rewrite main_database.
  change (initializeDatabase (Some before)) with before.
  split.
  - apply (elem_of_dom (D := gset (list N))). rewrite insertAll_dom.
    apply elem_of_union_l, (elem_of_dom_2 (D := gset (list N)) _ _ _ Hrow).
  - intros ->. now rewrite insertAll_ignore_lookup, Hrow.
Qed.

Lemma run_keeps_rows_witness :
  is_Some
    (database
       (fst (main ReplaceBuild (sampleWorld 3)
               (Some {[ js "2011/0001" := [SqlText (js "2011/0001")] ]})))
     !! js "2011/0001").
Proof.
  apply (run_keeps_rows ReplaceBuild (sampleWorld 3) _ (js "2011/0001")
           [SqlText (js "2011/0001")]).
  apply lookup_singleton_eq.
Defined.

(** X18. Running again on the table a run left, with the same date, random
    values and answers, leaves the table as it is. *)
Theorem run_again_changes_nothing (b : build) (w : world)
    (file : option table) :
  database (fst (main b w (Some (database (fst (main b w file))))))
  = database (fst (main b w file)).
Proof.
  rewrite (main_database b w (Some _)).
  change (initializeDatabase (Some ?t)) with t.
  rewrite main_database. now rewrite insertAll_again.
Qed.
